(** * amp-story embedded component: tooltip overlay state machine and geometry

    A shallow embedding of
    [extensions/amp-story/1.0/amp-story-embedded-component.js]:
    the placement arithmetic of the tooltip, the centering transform of the
    expanded view, and the [ComponentState] machine of
    [AmpStoryEmbeddedComponent] with the elements it owns.

    Numbers.  The coordinates a [ClientRect] carries are JavaScript numbers,
    that is binary64 doubles; they are taken here as rationals ([Q]), and
    equalities between computed coordinates are stated with [==].  Every
    arithmetic operation of the source rounds its exact result to the
    nearest double ([fl]).  In [verticalPositioning_] the rounded results
    are compared with a threshold and decide where the tooltip goes, so its
    operations are rounded here as they are in the source.  In
    [horizontalPositioning_] and in the centering transform every
    comparison is a minimum, a maximum or an absolute value, which are
    continuous: rounding decides nothing there, and their operations are
    kept exact.

    Methods.  A method is a function from the component to the way it
    completed (normally, or by throwing) and the component it leaves; the
    assignments made before a throw persist, as they do in the source.

    Collaborators.  The store, the loggers and the scheduler are outside
    the component.  What the component asks of them is appended to a log.
    The updates the store sends are inputs of the component, one call each.
    The scheduler runs the callbacks it is given ([mutateElement],
    [measureMutateElement]) outside the method that schedules them: what a
    callback throws does not reach that method.  Here a callback runs where
    it is scheduled, measure before mutate ([scheduled]): what it writes is
    written by the time the method returns, and is logged before what the
    method does next.  Callbacks write to elements only, and no method
    reads what a callback wrote, so no decision of a method depends on
    this. *)

From Stdlib Require Import QArith Qpower Qcanon Qminmax Qabs Lqa.
From stdpp Require Import gmap strings list.

Local Open Scope Q_scope.

(** ** Layout constants *)

(** Minimum vertical space needed to position tooltip. *)
Definition MIN_VERTICAL_SPACE : Q := 56.

(** Padding between tooltip and edges of screen. *)
Definition EDGE_PADDING : Q := 8.

(** ** Numbers *)

(** [n / d] rounded to the nearest integer, a tie going to the even one;
    [n] is not negative and [d] is positive. *)
Definition round_half_even (n d : Z) : Z :=
  let q := (n / d)%Z in
  match (2 * (n mod d) ?= d)%Z with
  | Lt => q
  | Gt => (q + 1)%Z
  | Eq => if Z.even q then q else (q + 1)%Z
  end.

(** The double nearest to [x] (round to nearest, ties to even): the result
    of a JavaScript arithmetic operation whose exact result is [x].  A
    double is [m * 2 ^ e] with [|m| < 2 ^ 53] and [-1074 <= e]; so [x],
    taken in lowest terms, is rounded to a multiple of [2 ^ e], where [e]
    is 52 below the binary exponent [e0] of [x], and not below -1074.  The
    coordinates of a layout are far from the largest double, and overflow
    to infinity is left out. *)
Definition fl (x : Q) : Q :=
  let x := Qred x in
  let n := Z.abs (Qnum x) in
  let d := Z.pos (Qden x) in
  if (n =? 0)%Z then 0 else
  let k := (Z.log2 n - Z.log2 d)%Z in
  let e0 := if Qle_bool (2 ^ k) (n # Qden x) then k else (k - 1)%Z in
  let e := Z.max (e0 - 52) (-1074) in
  let m :=
    if (0 <=? e)%Z then round_half_even n (d * 2 ^ e)
    else round_half_even (n * 2 ^ (- e)) d in
  Qred ((Z.sgn (Qnum x) * m # 1) * 2 ^ e).

(** ** Rectangles *)

(** The result of [getBoundingClientRect()].  [bottom] is the derived
    coordinate of a DOM rectangle, the sum [top + height] as the browser
    computes it. *)
Module Rect.
Record t := mk { top : Q; left : Q; width : Q; height : Q }.
Definition bottom (r : t) : Q := fl (top r + height r).
End Rect.

Abbreviation ClientRect := Rect.t.

(** ** Tooltip placement *)

(** The [state] object [positionTooltip_] shares between its measure and
    mutate callbacks.  It starts as [{arrowOnTop: false}]; the other
    properties are undefined until the positioning functions assign them. *)
Record PlacementState := mkPlacement {
  arrowOnTop : bool;
  tooltipTop : option Q;
  tooltipLeft : option Q;
  arrowLeftOffset : option Q
}.

Definition initialPlacement : PlacementState :=
  mkPlacement false None None None.

Definition set_tooltipTop (v : Q) (s : PlacementState) : PlacementState :=
  mkPlacement (arrowOnTop s) (Some v) (tooltipLeft s) (arrowLeftOffset s).

Definition set_arrowOnTop (b : bool) (s : PlacementState) : PlacementState :=
  mkPlacement b (tooltipTop s) (tooltipLeft s) (arrowLeftOffset s).

Definition set_tooltipLeft (v : Q) (s : PlacementState) : PlacementState :=
  mkPlacement (arrowOnTop s) (tooltipTop s) (Some v) (arrowLeftOffset s).

Definition set_arrowLeftOffset (v : Q) (s : PlacementState) : PlacementState :=
  mkPlacement (arrowOnTop s) (tooltipTop s) (tooltipLeft s) (Some v).

(** [a > b] on numbers, as a boolean. *)
Definition Qgtb (a b : Q) : bool := negb (Qle_bool a b).

(** [verticalPositioning_(targetRect, pageRect, state)].  Each difference,
    sum and quotient is the rounded one; the product [EDGE_PADDING * 2] of
    two small integers is exact. *)
Definition verticalPositioning_
    (targetRect pageRect : ClientRect) (state : PlacementState)
    : PlacementState :=
  let targetTopOffset := fl (Rect.top targetRect - Rect.top pageRect) in
  let targetBottomOffset :=
    fl (Rect.bottom targetRect - Rect.top pageRect) in
  if Qgtb targetTopOffset MIN_VERTICAL_SPACE then
    (* Tooltip fits above target. *)
    set_tooltipTop (fl (Rect.top targetRect - MIN_VERTICAL_SPACE)) state
  else if Qgtb (fl (Rect.height pageRect - targetBottomOffset))
            MIN_VERTICAL_SPACE
  then
    (* Tooltip fits below target. Place arrow on top of the tooltip. *)
    set_arrowOnTop true
      (set_tooltipTop (fl (Rect.bottom targetRect + EDGE_PADDING * 2)) state)
  else
    (* Element takes whole vertical space. Place tooltip on the middle. *)
    set_tooltipTop (fl (Rect.height pageRect / 2)) state.

(** [horizontalPositioning_(targetRect, pageRect, state)]; the two
    [offsetWidth] readings ([this.tooltip_], [this.tooltipArrow_]) are the
    arguments [tooltipWidth] and [arrowWidth]. *)
Definition horizontalPositioning_
    (tooltipWidth arrowWidth : Q)
    (targetRect pageRect : ClientRect) (state : PlacementState)
    : PlacementState :=
  let targetLeftOffset := Rect.left targetRect - Rect.left pageRect in
  let elCenterLeft := Rect.width targetRect / 2 + targetLeftOffset in
  let tooltipLeft0 := elCenterLeft - tooltipWidth / 2 in
  let maxHorizontalLeft := Rect.width pageRect - tooltipWidth - EDGE_PADDING in
  (* Make sure tooltip is not out of the page. *)
  let tooltipLeft1 := Qmin tooltipLeft0 maxHorizontalLeft in
  let tooltipLeft2 := Qmax EDGE_PADDING tooltipLeft1 in
  let arrowLeftOffset0 :=
    Qabs (elCenterLeft - tooltipLeft2 - arrowWidth / 2) in
  (* Make sure tooltip arrow is not out of the tooltip. *)
  let arrowLeftOffset1 :=
    Qmin arrowLeftOffset0 (tooltipWidth - EDGE_PADDING * 3) in
  set_tooltipLeft (tooltipLeft2 + Rect.left pageRect)
    (set_arrowLeftOffset arrowLeftOffset1 state).

(** The measure callback of [positionTooltip_]: both positioning functions
    run on the fresh [state] object. *)
Definition measurePlacement
    (tooltipWidth arrowWidth : Q) (targetRect pageRect : ClientRect)
    : PlacementState :=
  horizontalPositioning_ tooltipWidth arrowWidth targetRect pageRect
    (verticalPositioning_ targetRect pageRect initialPlacement).

(** ** Centering transform of the expanded view *)

(** The [state] object of [animateExpanded_], once its measure callback has
    run. *)
Record TransformState := mkTransform { translateX : Q; translateY : Q }.

(** The measure callback of [animateExpanded_]. *)
Definition measureExpanded (targetRect pageRect : ClientRect)
    : TransformState :=
  let centeredTop := Rect.height pageRect / 2 - Rect.height targetRect / 2 in
  let centeredLeft := Rect.width pageRect / 2 - Rect.width targetRect / 2 in
  (* Only account for offset from target to page borders. *)
  let leftOffset := Rect.left targetRect - Rect.left pageRect in
  let topOffset := Rect.top targetRect - Rect.top pageRect in
  {| translateY := centeredTop - topOffset;
     translateX := leftOffset - centeredLeft |}.


(** ** Elements *)

(** A value a script hands to an attribute setter: a string, or
    [undefined]. *)
Inductive jsval := JUndefined | JString (s : string).

(** An interactive element of the story, as the component reads it:
    its identity (the component compares targets with [!==]), its tag name
    in lower case, its classes, its attributes and its bounding rectangle.
    What the component writes to a target (a class, the [transform] style)
    is recorded in the effect log rather than in this record. *)
Record Element := mkElement {
  el_id : nat;
  localName : string;
  classList : list string;
  attributes : gmap string string;
  boundingRect : ClientRect
}.

(** [target.getAttribute(name)]: [None] stands for [null]. *)
Definition getAttribute (e : Element) (name : string) : option string :=
  attributes e !! name.

(** [target !== this.previousTarget_]. *)
Definition same_element (a : Element) (b : option Element) : bool :=
  match b with
  | Some b' => Nat.eqb (el_id a) (el_id b')
  | None => false
  end.

(** The two shapes of CSS selector the component tests a target against. *)
Inductive Selector :=
| TagWithAttribute (tag attr : string)
| AnyOfClasses (cls : list string).

(** [matches(el, selector)]. *)
Definition matches (e : Element) (sel : Selector) : bool :=
  match sel with
  | TagWithAttribute tag attr =>
      String.eqb (localName e) tag && bool_decide (is_Some (getAttribute e attr))
  | AnyOfClasses cls =>
      existsb (fun c => bool_decide (c ∈ classList e)) cls
  end.

(** Enum of elements that can be expanded. *)
Definition EXPANDABLE_COMPONENTS : list string := ["amp-twitter"%string].

(** [embeddedComponentSelectors()]: the CSS selectors of the interactive
    components. *)
Definition sel_EXPANDED_VIEW_OVERLAY : Selector :=
  AnyOfClasses ["i-amphtml-story-expanded-view-overflow"%string;
                "i-amphtml-expanded-view-close-button"%string].
Definition sel_LINK : Selector := TagWithAttribute "a" "href".

(** The selector [maybeCloseExpandedView_] tests. *)
Definition sel_CLOSE_BUTTON : Selector :=
  AnyOfClasses ["i-amphtml-expanded-view-close-button"%string].

(** Blank icon when no data-tooltip-icon src is specified. *)
Definition DEFAULT_ICON_SRC : string :=
  "data:image/gif;base64,R0lGODlhAQABAAD/ACwAAAAAAQABAAACADs=".

(** ** Helpers the component imports

    [isProtocolValid], [parseUrlDeprecated] ([src/url]),
    [getSourceOriginForElement] ([./utils]) and [addAttributesToElement]
    ([src/dom]) are defined outside this file of the repository; the
    component is parametric in them. *)
Class Helpers := {
  isProtocolValid : option string -> bool;
  parseUrlDeprecated_href : option string -> string;
  getSourceOriginForElement : Element -> jsval -> string;
  addAttributesToElement :
    gmap string string -> list (string * jsval) -> gmap string string
}.

(** ** The component and the elements it owns *)

(** States in which an embedded component could be found in. *)
Module ComponentState.
Definition HIDDEN : Z := 0.
Definition FOCUSED : Z := 1.
Definition EXPANDED : Z := 2.
End ComponentState.

Inductive UIType := MOBILE | DESKTOP_PANELS | DESKTOP_FULLBLEED.

Inductive Action := TOGGLE_EMBEDDED_COMPONENT | TOGGLE_EXPANDED_COMPONENT.

Inductive StateProperty := UI_STATE | CURRENT_PAGE_ID.

(** The elements the scheduler is asked to measure or mutate. *)
Inductive ElementRef :=
| RefStory | RefPage | RefFocusedOverlay | RefExpandedOverlay
| RefTarget (id : nat).

(** What the component asks of its collaborators (store, logger,
    scheduler, events) and what it writes to elements it does not own.
    The log of a component lists them, most recent first. *)
Inductive Effect :=
| Dispatch (a : Action) (data : option Element)
| Subscribe (p : StateProperty)
| DevWarnStateDoesNotExist (s : Z)
| UserError (msg : string)
| MutateElement (el : ElementRef)
| MeasureMutateElement (el : ElementRef)
| TargetClassAdd (id : nat) (cls : string)
| TargetSetTransform (id : nat) (t : TransformState)
| TargetResetStyles (id : nat) (props : list string)
| EventPreventDefault
| EventStopPropagation.

(** The focused-state layer ([section.i-amphtml-story-focused-state-layer]):
    its [i-amphtml-hidden] class and its [desktop] attribute. *)
Record Overlay := mkOverlay { ov_hidden : bool; ov_desktop : bool }.

(** The tooltip anchor ([a.i-amphtml-story-tooltip]) with its icon and text
    children.  [tt_attributes] holds its attributes other than [class] and
    [style]; of these two the component writes the arrow-on-top class
    ([tt_arrowOnTop]) and the [top] and [left] styles ([tt_top],
    [tt_left]). *)
Record Tooltip := mkTooltip {
  tt_attributes : gmap string string;
  tt_expandListener : bool;
  tt_text : string;
  tt_iconAttributes : gmap string string;
  tt_iconHidden : bool;
  tt_arrowOnTop : bool;
  tt_top : option Q;
  tt_left : option Q
}.

(** The tooltip arrow: its [left] style. *)
Record Arrow := mkArrow { ar_left : option Q }.

(** The expanded-view overlay: whether it is displayed. *)
Record ExpandedOverlay := mkExpandedOverlay { evo_displayed : bool }.

(** The active [amp-story-page]. *)
Record StoryPage := mkStoryPage {
  pageRect : ClientRect;
  expandedMode : bool;
  overlayAppended : bool
}.

(** The fields of [AmpStoryEmbeddedComponent], followed by what it reads
    from the document and the store, and the log of its effects.
    [shadowRoot_] holds whether the root has been appended to the story. *)
Record Component := mkComponent {
  state_ : Z;
  previousTarget_ : option Element;
  shadowRoot_ : option bool;
  focusedStateOverlay_ : option Overlay;
  tooltip_ : option Tooltip;
  tooltipArrow_ : option Arrow;
  expandedViewOverlay_ : option ExpandedOverlay;
  activePage : option StoryPage;
  tooltipOffsetWidth : Q;
  arrowOffsetWidth : Q;
  uiState : UIType;
  log : list Effect
}.

Definition set_state_ (v : Z) (c : Component) : Component :=
  mkComponent v (previousTarget_ c) (shadowRoot_ c) (focusedStateOverlay_ c)
    (tooltip_ c) (tooltipArrow_ c) (expandedViewOverlay_ c) (activePage c)
    (tooltipOffsetWidth c) (arrowOffsetWidth c) (uiState c) (log c).

Definition set_previousTarget_ (v : option Element) (c : Component)
    : Component :=
  mkComponent (state_ c) v (shadowRoot_ c) (focusedStateOverlay_ c)
    (tooltip_ c) (tooltipArrow_ c) (expandedViewOverlay_ c) (activePage c)
    (tooltipOffsetWidth c) (arrowOffsetWidth c) (uiState c) (log c).

Definition set_shadowRoot_ (v : option bool) (c : Component) : Component :=
  mkComponent (state_ c) (previousTarget_ c) v (focusedStateOverlay_ c)
    (tooltip_ c) (tooltipArrow_ c) (expandedViewOverlay_ c) (activePage c)
    (tooltipOffsetWidth c) (arrowOffsetWidth c) (uiState c) (log c).

Definition set_focusedStateOverlay_ (v : option Overlay) (c : Component)
    : Component :=
  mkComponent (state_ c) (previousTarget_ c) (shadowRoot_ c) v
    (tooltip_ c) (tooltipArrow_ c) (expandedViewOverlay_ c) (activePage c)
    (tooltipOffsetWidth c) (arrowOffsetWidth c) (uiState c) (log c).

Definition set_tooltip_ (v : option Tooltip) (c : Component) : Component :=
  mkComponent (state_ c) (previousTarget_ c) (shadowRoot_ c)
    (focusedStateOverlay_ c) v (tooltipArrow_ c) (expandedViewOverlay_ c)
    (activePage c) (tooltipOffsetWidth c) (arrowOffsetWidth c) (uiState c)
    (log c).

Definition set_tooltipArrow_ (v : option Arrow) (c : Component) : Component :=
  mkComponent (state_ c) (previousTarget_ c) (shadowRoot_ c)
    (focusedStateOverlay_ c) (tooltip_ c) v (expandedViewOverlay_ c)
    (activePage c) (tooltipOffsetWidth c) (arrowOffsetWidth c) (uiState c)
    (log c).

Definition set_expandedViewOverlay_ (v : option ExpandedOverlay)
    (c : Component) : Component :=
  mkComponent (state_ c) (previousTarget_ c) (shadowRoot_ c)
    (focusedStateOverlay_ c) (tooltip_ c) (tooltipArrow_ c) v
    (activePage c) (tooltipOffsetWidth c) (arrowOffsetWidth c) (uiState c)
    (log c).

Definition set_activePage (v : option StoryPage) (c : Component) : Component :=
  mkComponent (state_ c) (previousTarget_ c) (shadowRoot_ c)
    (focusedStateOverlay_ c) (tooltip_ c) (tooltipArrow_ c)
    (expandedViewOverlay_ c) v (tooltipOffsetWidth c) (arrowOffsetWidth c)
    (uiState c) (log c).

Definition set_log (v : list Effect) (c : Component) : Component :=
  mkComponent (state_ c) (previousTarget_ c) (shadowRoot_ c)
    (focusedStateOverlay_ c) (tooltip_ c) (tooltipArrow_ c)
    (expandedViewOverlay_ c) (activePage c) (tooltipOffsetWidth c)
    (arrowOffsetWidth c) (uiState c) v.

(** The component as its constructor leaves it, in a document whose active
    page is [page] and whose store reports the layout [ui]. *)
Definition newComponent (page : option StoryPage) (tooltipWidth arrowWidth : Q)
    (ui : UIType) : Component :=
  mkComponent ComponentState.HIDDEN None None None None None None page
    tooltipWidth arrowWidth ui [].

(** ** Methods as computations

    A method runs on the component and either completes normally or throws;
    what it assigned before throwing stays assigned. *)

Inductive Error := AssertionError | TypeError.

Inductive Completion (A : Type) := Normal (a : A) | Throw (e : Error).
Arguments Normal {A} a.
Arguments Throw {A} e.

Definition M (A : Type) : Type := Component -> Completion A * Component.

#[global] Instance M_ret : MRet M := fun A a c => (Normal a, c).

#[global] Instance M_bind : MBind M := fun A B f m c =>
  match m c with
  | (Normal a, c') => f a c'
  | (Throw e, c') => (Throw e, c')
  end.

Definition throw {A} (e : Error) : M A := fun c => (Throw e, c).

Definition get : M Component := fun c => (Normal c, c).

Definition modify (f : Component -> Component) : M unit :=
  fun c => (Normal tt, f c).

Definition emit (e : Effect) : M unit :=
  modify (fun c => set_log (e :: log c) c).

(** The component once [m] has run on [c], and how [m] completed. *)
Definition exec {A} (m : M A) (c : Component) : Component := snd (m c).
Definition completion {A} (m : M A) (c : Component) : Completion A :=
  fst (m c).

(** Modelled from the spec: [devAssert] of [src/log], which is not part of
    this file.  A required handle that does not exist is "asserted rather
    than recovered" and the assertion "aborts the current operation". *)
Definition devAssert {A} (o : option A) : M A :=
  match o with
  | Some a => mret a
  | None => throw AssertionError
  end.

(** Reading a property or calling a method of [null] throws a TypeError. *)
Definition deref {A} (o : option A) : M A :=
  match o with
  | Some a => mret a
  | None => throw TypeError
  end.

(** A write to [this.tooltip_] (an attribute, a listener, a class, a
    style). *)
Definition update_tooltip (f : Tooltip -> Tooltip) : M unit :=
  c ← get;
  t ← deref (tooltip_ c);
  modify (set_tooltip_ (Some (f t))).

Definition tt_set_attributes (v : gmap string string) (t : Tooltip) : Tooltip :=
  mkTooltip v (tt_expandListener t) (tt_text t) (tt_iconAttributes t)
    (tt_iconHidden t) (tt_arrowOnTop t) (tt_top t) (tt_left t).

Definition tt_set_expandListener (v : bool) (t : Tooltip) : Tooltip :=
  mkTooltip (tt_attributes t) v (tt_text t) (tt_iconAttributes t)
    (tt_iconHidden t) (tt_arrowOnTop t) (tt_top t) (tt_left t).

Definition tt_set_text (v : string) (t : Tooltip) : Tooltip :=
  mkTooltip (tt_attributes t) (tt_expandListener t) v (tt_iconAttributes t)
    (tt_iconHidden t) (tt_arrowOnTop t) (tt_top t) (tt_left t).

Definition tt_set_icon (attrs : gmap string string) (hidden : bool)
    (t : Tooltip) : Tooltip :=
  mkTooltip (tt_attributes t) (tt_expandListener t) (tt_text t) attrs hidden
    (tt_arrowOnTop t) (tt_top t) (tt_left t).

Definition tt_set_arrowOnTop (v : bool) (t : Tooltip) : Tooltip :=
  mkTooltip (tt_attributes t) (tt_expandListener t) (tt_text t)
    (tt_iconAttributes t) (tt_iconHidden t) v (tt_top t) (tt_left t).

Definition tt_set_position (top left : option Q) (t : Tooltip) : Tooltip :=
  mkTooltip (tt_attributes t) (tt_expandListener t) (tt_text t)
    (tt_iconAttributes t) (tt_iconHidden t) (tt_arrowOnTop t) top left.

(** A write to the active page the method looked up. *)
Definition update_page (f : StoryPage -> StoryPage) : M unit :=
  modify (fun c => set_activePage (f <$> activePage c) c).

(** The tooltip of a fresh focused-state template: the anchor
    [<a class="i-amphtml-story-tooltip" target="_blank">], without the
    arrow-on-top class and without style, with an empty text and an
    [<img>] without attributes. *)
Definition freshTooltip : Tooltip :=
  mkTooltip {[ "target"%string := "_blank"%string ]}
    false "" ∅ false false None None.

(** What the scheduler does with the callbacks of a [mutateElement] or a
    [measureMutateElement]: it runs them, the measure callback before the
    mutate callback, and what they throw does not reach the method that
    scheduled them.  A measure callback that throws leaves the mutate
    callback unrun. *)
Definition scheduled (callbacks : M unit) : M unit :=
  fun c => (Normal tt, exec callbacks c).

(** The callbacks through which the component is entered: the store's
    updates it subscribes to and the clicks it listens to. *)
Inductive Input :=
| EmbeddedComponentUpdate (target : option Element)
| UIStateUpdate (ui : UIType)
| CurrentPageIdUpdate (embedded : option Element)
| OverlayClick (insideTooltip : bool)
| ExpandClick.

Section Methods.
Context `{Helpers}.

(** [onUIStateUpdate_(uiState)]: the navigation buttons are hidden on
    desktop. *)
Definition onUIStateUpdate_ (ui : UIType) : M unit :=
  c ← get;
  ov ← devAssert (focusedStateOverlay_ c);
  emit (MutateElement RefFocusedOverlay);;
  scheduled (
    let desktop :=
      match ui with
      | DESKTOP_FULLBLEED | DESKTOP_PANELS => true
      | MOBILE => false
      end in
    modify (set_focusedStateOverlay_
              (Some (mkOverlay (ov_hidden ov) desktop)))).

(** [buildFocusedStateTemplate_(doc)]: the layer is built hidden, and
    [this.tooltip_] and [this.tooltipArrow_] point into it. *)
Definition buildFocusedStateTemplate_ : M (option Overlay) :=
  modify (set_tooltip_ (Some freshTooltip));;
  modify (set_tooltipArrow_ (Some (mkArrow None)));;
  mret (Some (mkOverlay true false)).

(** [buildFocusedState_()].  The [UI_STATE] subscription asks to be
    initialized, so its callback runs at once with the store's layout. *)
Definition buildFocusedState_ : M unit :=
  modify (set_shadowRoot_ (Some false));;
  tpl ← buildFocusedStateTemplate_;
  ov ← devAssert tpl;
  modify (set_focusedStateOverlay_ (Some ov));;
  emit (Subscribe UI_STATE);;
  c ← get;
  onUIStateUpdate_ (uiState c);;
  emit (Subscribe CURRENT_PAGE_ID).

(** [getElementHref_(target)]: the result is [undefined] when the
    protocol of the url is not valid. *)
Definition getElementHref_ (target : Element) : M jsval :=
  let elUrl := getAttribute target "href" in
  if negb (isProtocolValid elUrl) then
    emit (UserError "The tooltip url is invalid");;
    mret JUndefined
  else
    mret (JString (parseUrlDeprecated_href elUrl)).

(** [updateTooltipBehavior_(target)]. *)
Definition updateTooltipBehavior_ (target : Element) : M unit :=
  if matches target sel_LINK then
    c ← get;
    _ ← devAssert (tooltip_ c);
    href ← getElementHref_ target;
    update_tooltip (fun t =>
      tt_set_attributes
        (addAttributesToElement (tt_attributes t) [("href"%string, href)]) t)
  else if existsb (String.eqb (localName target)) EXPANDABLE_COMPONENTS then
    update_tooltip (tt_set_expandListener true)
  else mret tt.

(** [updateTooltipText_(target)]. *)
Definition updateTooltipText_ (target : Element) : M unit :=
  tooltipText ←
    match getAttribute target "data-tooltip-text" with
    | Some (String a s) => mret (String a s)
    | _ =>
        href ← getElementHref_ target;
        mret (getSourceOriginForElement target href)
    end;
  update_tooltip (tt_set_text tooltipText).

(** [updateTooltipIcon_(target)].  The icon of the template always has its
    [<img>] child, so the [src] attribute is always written. *)
Definition updateTooltipIcon_ (target : Element) : M unit :=
  let iconUrl := getAttribute target "data-tooltip-icon" in
  if negb (isProtocolValid iconUrl) then
    emit (UserError "The tooltip icon url is invalid")
  else
    let iconSrc :=
      match iconUrl with
      | Some (String a s) => parseUrlDeprecated_href iconUrl
      | _ => DEFAULT_ICON_SRC
      end in
    update_tooltip (fun t =>
      tt_set_icon
        (addAttributesToElement (tt_iconAttributes t)
           [("src"%string, JString iconSrc)])
        (String.eqb iconSrc DEFAULT_ICON_SRC) t).

(** [positionTooltip_(target)].  The method itself only schedules: the
    page, the tooltip and its arrow are read, and the class and the styles
    written, in the callbacks. *)
Definition positionTooltip_ (target : Element) : M unit :=
  emit (MeasureMutateElement RefStory);;
  scheduled (
    (* measure *)
    c ← get;
    let targetRect := boundingRect target in
    page ← deref (activePage c);
    _ ← deref (tooltip_ c);
    _ ← deref (tooltipArrow_ c);
    let state :=
      measurePlacement (tooltipOffsetWidth c) (arrowOffsetWidth c)
        targetRect (pageRect page) in
    (* mutate *)
    update_tooltip (tt_set_arrowOnTop (arrowOnTop state));;
    arrow ← devAssert (tooltipArrow_ c);
    modify (set_tooltipArrow_ (Some (mkArrow (arrowLeftOffset state))));;
    _ ← devAssert (tooltip_ c);
    update_tooltip (tt_set_position (tooltipTop state) (tooltipLeft state))).

(** [updateTooltipEl_(target)]. *)
Definition updateTooltipEl_ (target : Element) : M unit :=
  updateTooltipText_ target;;
  updateTooltipIcon_ target;;
  positionTooltip_ target.

(** [onFocusedStateUpdate_(target)]. *)
Definition onFocusedStateUpdate_ (target : option Element) : M unit :=
  match target with
  | None =>
      emit (Dispatch TOGGLE_EMBEDDED_COMPONENT None);;
      c ← get;
      ov ← devAssert (focusedStateOverlay_ c);
      emit (MutateElement RefFocusedOverlay);;
      scheduled (modify (set_focusedStateOverlay_
                           (Some (mkOverlay true (ov_desktop ov)))))
  | Some target =>
      c ← get;
      match focusedStateOverlay_ c with
      | Some _ => mret tt
      | None =>
          buildFocusedState_;;
          (* this.storyEl_.appendChild(shadowRoot) *)
          modify (set_shadowRoot_ (Some true))
      end;;
      updateTooltipBehavior_ target;;
      c ← get;
      (if negb (same_element target (previousTarget_ c)) then
         (* Only update tooltip when necessary. *)
         updateTooltipEl_ target
       else mret tt);;
      modify (set_previousTarget_ (Some target));;
      c ← get;
      ov ← devAssert (focusedStateOverlay_ c);
      emit (MutateElement RefFocusedOverlay);;
      scheduled (modify (set_focusedStateOverlay_
                           (Some (mkOverlay false (ov_desktop ov)))))
  end.

(** [animateExpanded_(target)]. *)
Definition animateExpanded_ (target : Element) : M unit :=
  emit (MeasureMutateElement (RefTarget (el_id target)));;
  scheduled (
    (* measure *)
    c ← get;
    page ← deref (activePage c);
    let state := measureExpanded (boundingRect target) (pageRect page) in
    (* mutate *)
    emit (TargetClassAdd (el_id target) "i-amphtml-animate-expand-in");;
    emit (TargetSetTransform (el_id target) state)).

(** [buildAndAppendExpandedViewOverlay_(storyPage)]. *)
Definition buildAndAppendExpandedViewOverlay_ : M unit :=
  modify (set_expandedViewOverlay_ (Some (mkExpandedOverlay true)));;
  emit (MutateElement RefPage);;
  scheduled (
    update_page (fun p => mkStoryPage (pageRect p) (expandedMode p) true)).

(** [toggleExpandedView_(targetToExpand)].  The assertion on the active
    page is the method's own; the assertions on the overlay and on the
    previous target of the collapse are made in its callback. *)
Definition toggleExpandedView_ (targetToExpand : option Element) : M unit :=
  c ← get;
  _ ← devAssert (activePage c);
  match targetToExpand with
  | None =>
      match expandedViewOverlay_ c with
      | None => mret tt
      | Some _ =>
          emit (MutateElement RefExpandedOverlay);;
          scheduled (
            update_page (fun p =>
              mkStoryPage (pageRect p) false (overlayAppended p));;
            c ← get;
            _ ← devAssert (expandedViewOverlay_ c);
            modify (set_expandedViewOverlay_
                      (Some (mkExpandedOverlay false)));;
            c ← get;
            prev ← devAssert (previousTarget_ c);
            emit (TargetResetStyles (el_id prev) ["transform"%string]))
      end
  | Some target =>
      animateExpanded_ target;;
      c ← get;
      match expandedViewOverlay_ c with
      | Some _ => mret tt
      | None => buildAndAppendExpandedViewOverlay_
      end;;
      c ← get;
      _ ← devAssert (expandedViewOverlay_ c);
      emit (MutateElement RefExpandedOverlay);;
      scheduled (
        c ← get;
        _ ← devAssert (expandedViewOverlay_ c);
        modify (set_expandedViewOverlay_ (Some (mkExpandedOverlay true)));;
        update_page (fun p =>
          mkStoryPage (pageRect p) true (overlayAppended p)))
  end.

(** [setState_(state, target)]. *)
Definition setState_ (state : Z) (target : option Element) : M unit :=
  if (state =? ComponentState.FOCUSED)%Z || (state =? ComponentState.HIDDEN)%Z
  then
    modify (set_state_ state);;
    onFocusedStateUpdate_ target
  else if (state =? ComponentState.EXPANDED)%Z then
    modify (set_state_ state);;
    onFocusedStateUpdate_ None;;
    toggleExpandedView_ target
  else
    c ← get;
    emit (DevWarnStateDoesNotExist (state_ c)).

(** [maybeCloseExpandedView_(target)]. *)
Definition maybeCloseExpandedView_ (target : option Element) : M unit :=
  match target with
  | Some t =>
      if matches t sel_CLOSE_BUTTON then
        (* Target is expanded and going into hidden mode. *)
        setState_ ComponentState.HIDDEN None;;
        toggleExpandedView_ None;;
        update_tooltip (tt_set_expandListener false);;
        emit (Dispatch TOGGLE_EXPANDED_COMPONENT None)
      else mret tt
  | None => mret tt
  end.

(** [onEmbeddedComponentUpdate_(target)]: reacts to embedded component
    updates. *)
Definition onEmbeddedComponentUpdate_ (target : option Element) : M unit :=
  c ← get;
  if (state_ c =? ComponentState.FOCUSED)%Z
     || (state_ c =? ComponentState.HIDDEN)%Z
  then
    match target with
    | Some _ => setState_ ComponentState.FOCUSED target
    | None => setState_ ComponentState.HIDDEN None
    end
  else if (state_ c =? ComponentState.EXPANDED)%Z then
    maybeCloseExpandedView_ target
  else
    emit (DevWarnStateDoesNotExist (state_ c)).

(** [clearTooltip_()]. *)
Definition clearTooltip_ : M unit :=
  update_tooltip (tt_set_expandListener false);;
  update_tooltip (fun t =>
    tt_set_attributes (delete "href"%string (tt_attributes t)) t).

(** [closeFocusedState_()]: hides the tooltip layer. *)
Definition closeFocusedState_ : M unit :=
  clearTooltip_;;
  setState_ ComponentState.HIDDEN None.

(** [onOutsideTooltipClick_(event)]; [insideTooltip] tells whether the
    tooltip is the event's target or one of its ancestors. *)
Definition onOutsideTooltipClick_ (insideTooltip : bool) : M unit :=
  if negb insideTooltip then
    emit EventStopPropagation;;
    closeFocusedState_
  else mret tt.

(** The [CURRENT_PAGE_ID] subscription of [buildFocusedState_];
    [embedded] is what the store holds for [EMBEDDED_COMPONENT]. *)
Definition onCurrentPageIdUpdate (embedded : option Element) : M unit :=
  match embedded with
  | Some _ => closeFocusedState_
  | None => mret tt
  end.

(** [onExpandComponent_(event)]. *)
Definition onExpandComponent_ : M unit :=
  emit EventPreventDefault;;
  emit EventStopPropagation;;
  c ← get;
  setState_ ComponentState.EXPANDED (previousTarget_ c);;
  c ← get;
  emit (Dispatch TOGGLE_EXPANDED_COMPONENT (previousTarget_ c)).

(** The method each input runs. *)
Definition handle (i : Input) : M unit :=
  match i with
  | EmbeddedComponentUpdate target => onEmbeddedComponentUpdate_ target
  | UIStateUpdate ui => onUIStateUpdate_ ui
  | CurrentPageIdUpdate embedded => onCurrentPageIdUpdate embedded
  | OverlayClick insideTooltip => onOutsideTooltipClick_ insideTooltip
  | ExpandClick => onExpandComponent_
  end.

(** The attribute helper leaves an [href] in place when it is asked to
    write one. *)
Definition hrefKept : Prop :=
  forall (attrs : gmap string string) (v : jsval),
    is_Some (attrs !! "href"%string) ->
    is_Some (addAttributesToElement attrs [("href"%string, v)]
             !! "href"%string).

End Methods.

(** ** An instance of the helpers

    The behaviour the document object model gives the imported helpers,
    used to run the component on examples: a url is refused when it starts
    with one of the script schemes; [addAttributesToElement] calls
    [setAttribute] for every key of the dict, and [setAttribute] stores the
    string conversion of the value it is given. *)

Definition INVALID_PROTOCOLS : list string :=
  ["javascript:"%string; "data:"%string; "vbscript:"%string].

Definition ToString (v : jsval) : string :=
  match v with
  | JUndefined => "undefined"
  | JString s => s
  end.

Definition setAttributes (attrs : gmap string string)
    (dict : list (string * jsval)) : gmap string string :=
  foldl (fun m kv => <[fst kv := ToString (snd kv)]> m) attrs dict.

#[global] Instance domHelpers : Helpers := {|
  isProtocolValid url :=
    match url with
    | Some u => negb (existsb (fun p => String.prefix p u) INVALID_PROTOCOLS)
    | None => true
    end;
  parseUrlDeprecated_href url := default "null"%string url;
  getSourceOriginForElement _ href := ToString href;
  addAttributesToElement := setAttributes
|}.

(** ** Examples to run the component on *)

Definition storyPage400x600 : StoryPage :=
  mkStoryPage (Rect.mk 0 0 400 600) false false.

Definition linkTo (id : nat) (href : string) : Element :=
  mkElement id "a" [] {[ "href"%string := href ]} (Rect.mk 300 180 40 40).

Definition tweet (id : nat) : Element :=
  mkElement id "amp-twitter" [] ∅ (Rect.mk 100 50 100 100).

Definition closeButton (id : nat) : Element :=
  mkElement id "span" ["i-amphtml-expanded-view-close-button"%string] ∅
    (Rect.mk 0 0 24 24).

Definition component0 : Component :=
  newComponent (Some storyPage400x600) 200 10 MOBILE.

(** The component of the examples once a tweet has been focused and its
    tooltip clicked: the tweet is in expanded view. *)
Definition expandedComponent : Component :=
  exec onExpandComponent_
    (exec (onEmbeddedComponentUpdate_ (Some (tweet 2))) component0).

(** The component of the examples with a link focused. *)
Definition focusedComponent : Component :=
  exec (onEmbeddedComponentUpdate_ (Some (linkTo 1 "https://example.com/")))
    component0.

(** ** Quantities the placement rules are stated with *)

(** Space above and below the target within the page, as
    [verticalPositioning_] computes them: [targetTopOffset] and
    [pageRect.height - targetBottomOffset], each operation rounded. *)
Definition spaceAbove (targetRect pageRect : ClientRect) : Q :=
  fl (Rect.top targetRect - Rect.top pageRect).

Definition spaceBelow (targetRect pageRect : ClientRect) : Q :=
  fl (Rect.height pageRect
      - fl (Rect.bottom targetRect - Rect.top pageRect)).

(** A rectangle whose vertical coordinates are whole numbers of pixels, of
    magnitude at most [2 ^ 50]. *)
Definition wholePixels (r : ClientRect) : Prop :=
  exists a h : Z,
    Rect.top r == inject_Z a /\ Rect.height r == inject_Z h /\
    (Z.abs a <= 2 ^ 50)%Z /\ (Z.abs h <= 2 ^ 50)%Z.

(** The horizontal midpoint of the target, relative to the page. *)
Definition targetMidpoint (targetRect pageRect : ClientRect) : Q :=
  Rect.width targetRect / 2 + (Rect.left targetRect - Rect.left pageRect).

(** The left edge of a tooltip centered on the target's midpoint. *)
Definition centeredLeft (tooltipWidth : Q) (targetRect pageRect : ClientRect)
    : Q :=
  targetMidpoint targetRect pageRect - tooltipWidth / 2.

(** The largest left edge that keeps the tooltip [EDGE_PADDING] away from
    the right edge of the page. *)
Definition maxHorizontalLeft (tooltipWidth : Q) (pageRect : ClientRect) : Q :=
  Rect.width pageRect - tooltipWidth - EDGE_PADDING.

(** The arrow offset in the words of the specification: the distance
    between the target's midpoint and the clamped tooltip left, less half
    the arrow width, clamped to [[0, tooltipWidth - 3 * EDGE_PADDING]].
    [clampedLeft] is relative to the page. *)
Definition spec_arrowLeftOffset (tooltipWidth arrowWidth : Q)
    (targetRect pageRect : ClientRect) (clampedLeft : Q) : Q :=
  Qmax 0
    (Qmin (Qabs (targetMidpoint targetRect pageRect - clampedLeft)
           - arrowWidth / 2)
          (tooltipWidth - 3 * EDGE_PADDING)).

(** ** Observations of a run *)

(** [keeps proj m]: whatever [m] does, and however it completes, it leaves
    the observation [proj] of the component as it was. *)
Definition keeps {A B} (proj : Component -> B) (m : M A) : Prop :=
  forall c, proj (exec m c) = proj c.

(** A state value outside the [ComponentState] enum. *)
Definition unknownState (s : Z) : Prop :=
  s <> ComponentState.HIDDEN /\ s <> ComponentState.FOCUSED /\
  s <> ComponentState.EXPANDED.

(** A method fails loudly when it throws instead of returning. *)
Definition failsLoudly {A} (m : M A) (c : Component) : Prop :=
  exists e, completion m c = Throw e.

(** The [href] attribute of the tooltip and its expand-click listener. *)
Definition tooltipHref (c : Component) : option string :=
  t ← tooltip_ c; tt_attributes t !! "href"%string.

Definition tooltipExpandListener (c : Component) : option bool :=
  tt_expandListener <$> tooltip_ c.

(** What [updateTooltipEl_] writes: the text, the icon, the side of the
    arrow, the position of the tooltip and of its arrow; and the number of
    times it has asked the scheduler for a placement of the tooltip. *)
Definition tooltipContent (c : Component)
    : option (string * gmap string string * bool * bool
              * option Q * option Q) :=
  (fun t => (tt_text t, tt_iconAttributes t, tt_iconHidden t,
             tt_arrowOnTop t, tt_top t, tt_left t)) <$> tooltip_ c.

Definition is_placement (e : Effect) : bool :=
  match e with
  | MeasureMutateElement RefStory => true
  | _ => false
  end.

Definition placements (c : Component) : nat :=
  length (List.filter is_placement (log c)).

Definition tooltipView (c : Component) :=
  (tooltipContent c, tooltipArrow_ c, placements c).

(** The inputs that hide the tooltip through [closeFocusedState_], and the
    one that closes the expanded view. *)
Definition clearingInput (c : Component) (i : Input) : Prop :=
  i = OverlayClick false \/
  (exists t, i = CurrentPageIdUpdate (Some t)) \/
  (exists t, i = EmbeddedComponentUpdate (Some t) /\
             state_ c = ComponentState.EXPANDED /\
             matches t sel_CLOSE_BUTTON = true).

(** [n] deliveries in a row of the same store update, each a call of its
    own: a delivery that throws does not prevent the next one. *)
Fixpoint deliveries (n : nat) (m : M unit) (c : Component) : Component :=
  match n with
  | O => c
  | S n' => deliveries n' m (exec m c)
  end.

(** The tooltip keeps what makes it a link or an expander from [c] to
    [c']: an attached expand-click listener stays attached, an [href]
    attribute stays present. *)
Definition linkKept (c c' : Component) : Prop :=
  (tooltipExpandListener c = Some true ->
   tooltipExpandListener c' = Some true) /\
  (is_Some (tooltipHref c) -> is_Some (tooltipHref c')).

(** [preserves P m]: a property of the component that holds before [m]
    holds after it, however [m] completes. *)
Definition preserves {A} (P : Component -> Prop) (m : M A) : Prop :=
  forall c, P c -> P (exec m c).

(** [ensures m Q]: when [m] completes normally, [Q] holds of the
    component. *)
Definition ensures {A} (m : M A) (Q : Component -> Prop) : Prop :=
  forall c a c', m c = (Normal a, c') -> Q c'.

(** The attributes of the tooltip anchor. *)
Definition tooltipAttributes (c : Component) : option (gmap string string) :=
  tt_attributes <$> tooltip_ c.

(** The component is focused on [t], its layer built. *)
Definition focusedOn (t : Element) (c : Component) : Prop :=
  state_ c = ComponentState.FOCUSED /\
  is_Some (focusedStateOverlay_ c) /\
  same_element t (previousTarget_ c) = true.

(** [bumps k m]: [m] asks for at most [k] placements of the tooltip. *)
Definition bumps {A} (k : nat) (m : M A) : Prop :=
  forall c, (placements (exec m c) <= placements c + k)%nat.

(** ** Observations of runs of inputs *)

(** The values of the [ComponentState] enum. *)
Definition validState (s : Z) : Prop :=
  s = ComponentState.HIDDEN \/ s = ComponentState.FOCUSED \/
  s = ComponentState.EXPANDED.

Definition is_subscription (e : Effect) : bool :=
  match e with
  | Subscribe _ => true
  | _ => false
  end.

(** The number of subscriptions the component has made to the store since
    its constructor. *)
Definition subscriptions (c : Component) : nat :=
  length (List.filter is_subscription (log c)).

Definition is_state_warning (e : Effect) : bool :=
  match e with
  | DevWarnStateDoesNotExist _ => true
  | _ => false
  end.

(** The number of "ComponentState ... does not exist" warnings logged. *)
Definition stateWarnings (c : Component) : nat :=
  length (List.filter is_state_warning (log c)).

(** The focused-state layer has not been built: none of its elements
    exists and nothing has been subscribed to. *)
Definition layerNotBuilt (c : Component) : Prop :=
  focusedStateOverlay_ c = None /\ tooltip_ c = None /\
  tooltipArrow_ c = None /\ shadowRoot_ c = None /\ subscriptions c = 0%nat.

(** The focused-state layer has been built: the layer, the tooltip and its
    arrow exist, the shadow root is in the story, and the two subscriptions
    of [buildFocusedState_] have been made once. *)
Definition layerBuilt (c : Component) : Prop :=
  is_Some (focusedStateOverlay_ c) /\ is_Some (tooltip_ c) /\
  is_Some (tooltipArrow_ c) /\ shadowRoot_ c = Some true /\
  subscriptions c = 2%nat.

Definition consistentBuilt (c : Component) : Prop :=
  validState (state_ c) /\ stateWarnings c = 0%nat /\ layerBuilt c.

Definition consistent (c : Component) : Prop :=
  validState (state_ c) /\ stateWarnings c = 0%nat /\
  (layerNotBuilt c \/ layerBuilt c).

(** The component after a sequence of inputs, each handled by a call of
    its own. *)
Fixpoint run `{Helpers} (inputs : list Input) (c : Component) : Component :=
  match inputs with
  | [] => c
  | i :: inputs' => run inputs' (exec (handle i) c)
  end.

(** [buildFocusedState_()] followed by the [appendChild] of its result, as
    [onFocusedStateUpdate_] runs them when the layer does not exist. *)
Definition buildAndAppendFocusedState `{Helpers} : M unit :=
  buildFocusedState_;;
  modify (set_shadowRoot_ (Some true)).

(** ** Navigation buttons *)

Inductive EventType := NEXT_PAGE | PREVIOUS_PAGE.

Inductive NavigationButton := ButtonLeft | ButtonRight.

(** The direction the click listener of each button passes to
    [onNavigationalClick_]; [rtlState] is what the store held for
    [RTL_STATE] when [buildFocusedStateTemplate_] ran. *)
Definition navigationDirection (rtlState : bool) (b : NavigationButton)
    : EventType :=
  match b with
  | ButtonLeft => if rtlState then NEXT_PAGE else PREVIOUS_PAGE
  | ButtonRight => if rtlState then PREVIOUS_PAGE else NEXT_PAGE
  end.

(** [onNavigationalClick_(event, direction)].  The result is the type of
    the bubbling event dispatched on the shadow root. *)
Definition onNavigationalClick_ (direction : EventType) : M EventType :=
  emit EventPreventDefault;;
  c ← get;
  _ ← devAssert (shadowRoot_ c);
  mret direction.

(** A click on a navigation button of the layer.  The listener of the
    button runs [onNavigationalClick_] with the button's direction, and its
    completion is that of the click.  The story navigates on the event it
    dispatches, and the store may deliver updates to the component while it
    does ([storeUpdates]).  The click then bubbles to the layer, whose
    listener is [onOutsideTooltipClick_]: a button is inside the layer and
    outside the tooltip, and [onNavigationalClick_] does not stop the
    propagation. *)
Definition navigationButtonClick `{Helpers} (rtlState : bool)
    (b : NavigationButton) (storeUpdates : list Input) : M EventType :=
  fun c =>
    let r := onNavigationalClick_ (navigationDirection rtlState b) c in
    (r.1, exec (onOutsideTooltipClick_ false) (run storeUpdates r.2)).

(** [e] is among what the component has logged from [c] to [c'], wherever
    among it. *)
Definition loggedSince (c c' : Component) (e : Effect) : Prop :=
  exists l, log c' = l ++ log c /\ e ∈ l.

(** The placement the tooltip and its arrow carry: the side of the arrow,
    the [top] and [left] styles of the tooltip, the [left] style of the
    arrow. *)
Definition tooltipPlacement (c : Component) : option PlacementState :=
  t ← tooltip_ c;
  a ← tooltipArrow_ c;
  Some (mkPlacement (tt_arrowOnTop t) (tt_top t) (tt_left t) (ar_left a)).

(** The text of the tooltip and its icon ([src] attribute and hidden
    class). *)
Definition tooltipText (c : Component) : option string :=
  tt_text <$> tooltip_ c.

Definition tooltipIcon (c : Component)
    : option (gmap string string * bool) :=
  (fun t => (tt_iconAttributes t, tt_iconHidden t)) <$> tooltip_ c.

(** What [updateTooltipText_] writes for a target: its non-empty
    [data-tooltip-text], or else the source origin of its href, which is
    [undefined] when the url is refused. *)
Definition expectedText `{Helpers} (t : Element) : string :=
  match getAttribute t "data-tooltip-text" with
  | Some (String a s) => String a s
  | _ =>
      getSourceOriginForElement t
        (if isProtocolValid (getAttribute t "href")
         then JString (parseUrlDeprecated_href (getAttribute t "href"))
         else JUndefined)
  end.

(** What the updates of the tooltip leave alone. *)
Definition aroundTooltip (c : Component) :=
  (state_ c, previousTarget_ c, shadowRoot_ c, focusedStateOverlay_ c,
   expandedViewOverlay_ c, activePage c, tooltipOffsetWidth c,
   arrowOffsetWidth c, uiState c).

(** The [src] that [updateTooltipIcon_] writes for a target whose icon url
    is accepted: the parsed url, or the blank icon when the target declares
    none. *)
Definition expectedIconSrc `{Helpers} (t : Element) : string :=
  match getAttribute t "data-tooltip-icon" with
  | Some (String a s) =>
      parseUrlDeprecated_href (getAttribute t "data-tooltip-icon")
  | _ => DEFAULT_ICON_SRC
  end.

(** The number of times the expanded-view overlay has been appended to
    the page: [buildAndAppendExpandedViewOverlay_] is the only request to
    mutate the page. *)
Definition is_page_append (e : Effect) : bool :=
  match e with
  | MutateElement RefPage => true
  | _ => false
  end.

Definition pageAppends (c : Component) : nat :=
  length (List.filter is_page_append (log c)).

Definition expandedOverlayView (c : Component) :=
  (expandedViewOverlay_ c, pageAppends c).

(** The overlay exists exactly when it has been appended, once. *)
Definition appendedOnce (c : Component) : Prop :=
  match expandedViewOverlay_ c with
  | None => pageAppends c = 0%nat
  | Some _ => pageAppends c = 1%nat
  end.

(** The [desktop] attribute [onUIStateUpdate_] gives the layer. *)
Definition isDesktop (ui : UIType) : bool :=
  match ui with
  | DESKTOP_FULLBLEED | DESKTOP_PANELS => true
  | MOBILE => false
  end.

(** * Properties *)

(** ** Number comparisons *)

Lemma Qgtb_true a b : Qgtb a b = true <-> b < a.
Proof.
  unfold Qgtb. rewrite negb_true_iff.
  destruct (Qle_bool a b) eqn:E.
  - apply Qle_bool_iff in E. split; [discriminate | intros Hlt; lra].
  - split; [intros _ | reflexivity].
    apply Qnot_le_lt. intros Hle. apply Qle_bool_iff in Hle. congruence.
Qed.

Lemma Qgtb_false a b : Qgtb a b = false <-> a <= b.
Proof.
  unfold Qgtb. rewrite negb_false_iff. apply Qle_bool_iff.
Qed.

(** ** Rounding *)

Lemma fl_proper x y : x == y -> fl x = fl y.
Proof. intros Heq. unfold fl. by rewrite (Qred_complete x y Heq). Qed.

#[global] Instance fl_Proper : Proper (Qeq ==> Qeq) fl.
Proof. intros x y Heq. by rewrite (fl_proper x y Heq). Qed.

Lemma round_half_even_exact n : round_half_even n 1 = n.
Proof.
  unfold round_half_even. rewrite Z.mod_1_r, Z.div_1_r. reflexivity.
Qed.

Lemma Qpower_2_nonneg k : (0 <= k)%Z -> 2 ^ k == inject_Z (2 ^ k).
Proof. intros Hk. symmetry. apply (Zpower_Qpower 2 k Hk). Qed.

(** [fl] on well-known values of binary64 arithmetic: the sum of the
    doubles nearest to 0.1 and 0.2 is 0.30000000000000004, which is not
    the double nearest to 0.3; a third is rounded to 53 significant bits;
    above [2 ^ 53] the doubles are the even integers, and a tie goes to
    the neighbour whose last bit is zero; the smallest positive double is
    [2 ^ -1074], half of which rounds to zero. *)
Example fl_known_values :
  fl (fl 0.1 + fl 0.2) == 5404319552844596 # 2 ^ 54 /\
  fl 0.3 == 5404319552844595 # 2 ^ 54 /\
  fl (1 / 3) == 6004799503160661 # 2 ^ 54 /\
  fl (2 ^ 53 + 1) == 2 ^ 53 /\
  fl (2 ^ 53 + 3) == 2 ^ 53 + 4 /\
  fl (2 ^ (-1074)) == 2 ^ (-1074) /\
  fl (2 ^ (-1075)) == 0 /\
  fl (3 * 2 ^ (-1075)) == 2 ^ (-1073) /\
  fl (- (1 / 3)) == - fl (1 / 3).
Proof. repeat split; by vm_compute. Qed.

(** An integer below [2 ^ 53] in magnitude is a double: rounding leaves it
    as it is. *)
Lemma fl_integer (x : Q) (z : Z) :
  x == inject_Z z -> (Z.abs z < 2 ^ 53)%Z -> fl x == x.
Proof.
  intros Hx Hz. rewrite (fl_proper x (inject_Z z) Hx), Hx. clear x Hx.
  unfold fl.
  rewrite (Qred_identity (inject_Z z)) by (simpl; apply Z.gcd_1_r).
  cbn [Qnum Qden inject_Z].
  destruct (Z.eqb_spec (Z.abs z) 0) as [H0 | H0].
  { assert (z = 0%Z) as -> by lia. reflexivity. }
  assert (Hpos : (0 < Z.abs z)%Z) by lia.
  change (Z.log2 1) with 0%Z. rewrite Z.sub_0_r.
  set (k := Z.log2 (Z.abs z)).
  assert (Hk : (0 <= k)%Z) by apply Z.log2_nonneg.
  assert (Hk53 : (k < 53)%Z) by (apply Z.log2_lt_pow2; lia).
  assert (Hle : Qle_bool (2 ^ k) (Z.abs z # 1) = true).
  { apply Qle_bool_iff. rewrite Qpower_2_nonneg by done.
    change (Z.abs z # 1) with (inject_Z (Z.abs z)). rewrite <- Zle_Qle.
    by apply Z.log2_spec. }
  rewrite Hle.
  replace (Z.max (k - 52) (-1074)) with (k - 52)%Z by lia.
  assert (Hval : (Z.sgn z * Z.abs z)%Z = z) by lia.
  rewrite Qred_correct.
  destruct (Z.leb_spec 0 (k - 52)) as [He | He].
  - assert (k = 52)%Z by lia. replace (k - 52)%Z with 0%Z by lia.
    rewrite Z.mul_1_l. change (2 ^ 0)%Z with 1%Z.
    rewrite round_half_even_exact, Hval. change (2 ^ 0) with 1.
    unfold inject_Z. ring.
  - rewrite round_half_even_exact.
    set (j := (- (k - 52))%Z). assert (Hj : (0 < j)%Z) by lia.
    replace (k - 52)%Z with (- j)%Z by lia.
    rewrite Qpower_opp, Qpower_2_nonneg by lia.
    rewrite Z.mul_assoc, Hval.
    unfold Qeq. simpl.
    assert (Hp : (0 < 2 ^ j)%Z) by (apply Z.pow_pos_nonneg; lia).
    destruct (2 ^ j)%Z as [| pj | pj] eqn:Epj; try lia.
    simpl. lia.
Qed.

(** ** Vertical placement *)

Lemma vertical_above t p st :
  MIN_VERTICAL_SPACE < spaceAbove t p ->
  verticalPositioning_ t p st
  = set_tooltipTop (fl (Rect.top t - MIN_VERTICAL_SPACE)) st.
Proof.
  intros Habove. unfold verticalPositioning_.
  apply Qgtb_true in Habove. unfold spaceAbove in Habove.
  by rewrite Habove.
Qed.

Lemma vertical_below t p st :
  spaceAbove t p <= MIN_VERTICAL_SPACE ->
  MIN_VERTICAL_SPACE < spaceBelow t p ->
  verticalPositioning_ t p st
  = set_arrowOnTop true
      (set_tooltipTop (fl (Rect.bottom t + EDGE_PADDING * 2)) st).
Proof.
  intros Habove Hbelow. unfold verticalPositioning_.
  apply Qgtb_false in Habove. apply Qgtb_true in Hbelow.
  unfold spaceAbove in Habove. unfold spaceBelow in Hbelow.
  by rewrite Habove, Hbelow.
Qed.

Lemma vertical_middle t p st :
  spaceAbove t p <= MIN_VERTICAL_SPACE ->
  spaceBelow t p <= MIN_VERTICAL_SPACE ->
  verticalPositioning_ t p st = set_tooltipTop (fl (Rect.height p / 2)) st.
Proof.
  intros Habove Hbelow. unfold verticalPositioning_.
  apply Qgtb_false in Habove. apply Qgtb_false in Hbelow.
  unfold spaceAbove in Habove. unfold spaceBelow in Hbelow.
  by rewrite Habove, Hbelow.
Qed.

(** On rectangles whose vertical coordinates are whole numbers of pixels,
    of magnitude at most [2 ^ 50], nothing is rounded: the spaces
    [verticalPositioning_] compares, and the tops it gives the tooltip
    above and below the target, are the exact ones. *)
Lemma vertical_on_integers (t p : ClientRect) (a h b g : Z) :
  Rect.top t == inject_Z a -> Rect.height t == inject_Z h ->
  Rect.top p == inject_Z b -> Rect.height p == inject_Z g ->
  (Z.abs a <= 2 ^ 50)%Z -> (Z.abs h <= 2 ^ 50)%Z ->
  (Z.abs b <= 2 ^ 50)%Z -> (Z.abs g <= 2 ^ 50)%Z ->
  spaceAbove t p == Rect.top t - Rect.top p /\
  spaceBelow t p
  == Rect.height p - (Rect.top t + Rect.height t - Rect.top p) /\
  fl (Rect.top t - MIN_VERTICAL_SPACE) == Rect.top t - 56 /\
  fl (Rect.bottom t + EDGE_PADDING * 2) == Rect.top t + Rect.height t + 16.
Proof.
  intros Ha Hh Hb Hg Ba Bh Bb Bg.
  assert (H50 : (2 ^ 53 = 8 * 2 ^ 50)%Z) by reflexivity.
  assert (Hbottom : Rect.bottom t == Rect.top t + Rect.height t).
  { unfold Rect.bottom. apply (fl_integer _ (a + h)); [| lia].
    rewrite Ha, Hh. unfold Qeq. simpl. lia. }
  assert (Hoffset : fl (Rect.bottom t - Rect.top p)
                    == Rect.top t + Rect.height t - Rect.top p).
  { rewrite Hbottom. apply (fl_integer _ (a + h - b)); [| lia].
    rewrite Ha, Hh, Hb. unfold Qeq. simpl. lia. }
  split; [| split; [| split]].
  - unfold spaceAbove. apply (fl_integer _ (a - b)); [| lia].
    rewrite Ha, Hb. unfold Qeq. simpl. lia.
  - unfold spaceBelow. rewrite Hoffset.
    apply (fl_integer _ (g - (a + h - b))); [| lia].
    rewrite Ha, Hh, Hb, Hg. unfold Qeq. simpl. lia.
  - apply (fl_integer _ (a - 56)); [| lia].
    rewrite Ha. unfold Qeq. simpl. lia.
  - rewrite Hbottom.
    assert (Hsum : Rect.top t + Rect.height t + EDGE_PADDING * 2
                   == inject_Z (a + h + 16))
      by (rewrite Ha, Hh; unfold Qeq; simpl; lia).
    rewrite (fl_integer _ (a + h + 16) Hsum) by lia.
    unfold EDGE_PADDING. lra.
Qed.

(** Rounding decides the rule.  The doubles nearest to 56.1 and 0.1 differ
    by more than 56, yet their computed difference is 56: a target whose
    top is the one in a page whose top is the other gets its tooltip below
    it.  The doubles nearest to 585.7 and 473.7 leave more than 56 under a
    target at top 56, yet the computed space below is 56: the tooltip goes
    to the middle of the page. *)
Example vertical_rounding :
  (let t := Rect.mk (fl 56.1) 180 40 40 in
   let p := Rect.mk (fl 0.1) 0 400 600 in
   MIN_VERTICAL_SPACE < Rect.top t - Rect.top p /\
   spaceAbove t p == MIN_VERTICAL_SPACE /\
   arrowOnTop (verticalPositioning_ t p initialPlacement) = true) /\
  (let t := Rect.mk 56 180 40 (fl 473.7) in
   let p := Rect.mk 0 0 400 (fl 585.7) in
   MIN_VERTICAL_SPACE < Rect.height p - (Rect.top t + Rect.height t) /\
   spaceBelow t p == MIN_VERTICAL_SPACE /\
   tooltipTop (verticalPositioning_ t p initialPlacement)
   = Some (fl (Rect.height p / 2))).
Proof. cbv zeta. repeat split; by vm_compute. Qed.

(** C2, as the spec states it, fails: with exactly [MIN_VERTICAL_SPACE]
    above the target (top 56 in a page at top 0) the first rule is not
    selected; the tooltip goes below the target, arrow on top. *)
Lemma C2_counterexample :
  let t := Rect.mk 56 180 40 40 in
  let p := Rect.mk 0 0 400 600 in
  let r := verticalPositioning_ t p initialPlacement in
  spaceAbove t p == MIN_VERTICAL_SPACE /\
  Rect.top t - Rect.top p == MIN_VERTICAL_SPACE /\
  tooltipTop r = Some 112 /\ arrowOnTop r = true /\
  ~ (exists q, tooltipTop r = Some q /\
               q == Rect.top t - MIN_VERTICAL_SPACE /\ arrowOnTop r = false).
Proof.
  cbv zeta. split; [by vm_compute |]. split; [by vm_compute |].
  split; [by vm_compute |]. split; [by vm_compute |].
  intros (q & _ & _ & Harrow). vm_compute in Harrow. discriminate.
Qed.

(** C2, amended: the comparison is strict, and it is made on the numbers
    the code computes, each operation rounded to the nearest double.  When
    the computed space above the target, [targetRect.top - pageRect.top],
    is exactly [MIN_VERTICAL_SPACE], the first rule is not selected: the
    tooltip goes below the target ([targetBottom + 2 * EDGE_PADDING], arrow
    on top) when the computed space below,
    [pageRect.height - (targetRect.bottom - pageRect.top)], exceeds
    [MIN_VERTICAL_SPACE], and to the middle of the page otherwise. *)
Theorem C2_boundary_is_exclusive (t p : ClientRect) :
  spaceAbove t p == MIN_VERTICAL_SPACE ->
  let r := verticalPositioning_ t p initialPlacement in
  (MIN_VERTICAL_SPACE < spaceBelow t p ->
     tooltipTop r = Some (fl (Rect.bottom t + EDGE_PADDING * 2)) /\
     arrowOnTop r = true) /\
  (spaceBelow t p <= MIN_VERTICAL_SPACE ->
     tooltipTop r = Some (fl (Rect.height p / 2)) /\ arrowOnTop r = false).
Proof.
  intros Heq r. subst r.
  assert (Hle : spaceAbove t p <= MIN_VERTICAL_SPACE) by (rewrite Heq; lra).
  split; intros Hbelow.
  - by rewrite vertical_below.
  - by rewrite vertical_middle.
Qed.

Lemma C2_boundary_is_exclusive_witness :
  (let t := Rect.mk 56 180 40 40 in
   let p := Rect.mk 0 0 400 600 in
   let r := verticalPositioning_ t p initialPlacement in
   spaceAbove t p == MIN_VERTICAL_SPACE /\
   MIN_VERTICAL_SPACE < spaceBelow t p /\
   tooltipTop r = Some (fl (Rect.bottom t + EDGE_PADDING * 2)) /\
   arrowOnTop r = true) /\
  (let t := Rect.mk (fl 56.1) 180 40 40 in
   let p := Rect.mk (fl 0.1) 0 400 600 in
   let r := verticalPositioning_ t p initialPlacement in
   spaceAbove t p == MIN_VERTICAL_SPACE /\
   MIN_VERTICAL_SPACE < spaceBelow t p /\
   tooltipTop r = Some (fl (Rect.bottom t + EDGE_PADDING * 2)) /\
   arrowOnTop r = true).
Proof.
  cbv zeta. split.
  - assert (Heq : spaceAbove (Rect.mk 56 180 40 40) (Rect.mk 0 0 400 600)
                  == MIN_VERTICAL_SPACE) by (by vm_compute).
    assert (Hlt : MIN_VERTICAL_SPACE
                  < spaceBelow (Rect.mk 56 180 40 40) (Rect.mk 0 0 400 600))
      by (by vm_compute).
    split; [exact Heq |]. split; [exact Hlt |].
    exact (proj1 (C2_boundary_is_exclusive _ _ Heq) Hlt).
  - assert (Heq : spaceAbove (Rect.mk (fl 56.1) 180 40 40)
                    (Rect.mk (fl 0.1) 0 400 600)
                  == MIN_VERTICAL_SPACE) by (by vm_compute).
    assert (Hlt : MIN_VERTICAL_SPACE
                  < spaceBelow (Rect.mk (fl 56.1) 180 40 40)
                      (Rect.mk (fl 0.1) 0 400 600))
      by (by vm_compute).
    split; [exact Heq |]. split; [exact Hlt |].
    exact (proj1 (C2_boundary_is_exclusive _ _ Heq) Hlt).
Defined.

(** C3, as the spec states it, fails on its second rule: with less than
    [MIN_VERTICAL_SPACE] above the target and exactly [MIN_VERTICAL_SPACE]
    below it, the tooltip is not placed below the target but in the middle
    of the page, and the arrow stays at the bottom. *)
Lemma C3_counterexample :
  let t := Rect.mk 10 180 40 534 in
  let p := Rect.mk 0 0 400 600 in
  let r := verticalPositioning_ t p initialPlacement in
  spaceAbove t p < MIN_VERTICAL_SPACE /\
  MIN_VERTICAL_SPACE <= spaceBelow t p /\
  Rect.height p - (Rect.top t + Rect.height t - Rect.top p)
  == MIN_VERTICAL_SPACE /\
  (exists q, tooltipTop r = Some q /\ q == 300) /\ arrowOnTop r = false /\
  ~ (exists q, tooltipTop r = Some q /\
               q == Rect.bottom t + 2 * EDGE_PADDING /\ arrowOnTop r = true).
Proof.
  cbv zeta. split; [by vm_compute |]. split; [by vm_compute |].
  split; [by vm_compute |].
  split; [eexists; split; [by vm_compute | reflexivity] |].
  split; [by vm_compute |].
  intros (q & _ & _ & Harrow). vm_compute in Harrow. discriminate.
Qed.

(** C3, amended: the rules are tried in order, each with a strict
    comparison, on the numbers the code computes (each operation rounded to
    the nearest double).  Computed space above the target,
    [targetRect.top - pageRect.top], more than [MIN_VERTICAL_SPACE]: the
    tooltip goes to [targetTop - 56], arrow at the bottom.  Otherwise,
    computed space below,
    [pageRect.height - (targetRect.bottom - pageRect.top)], more than
    [MIN_VERTICAL_SPACE]: [targetBottom + 16], arrow on top.  Otherwise
    [pageHeight / 2], arrow at the bottom.  The target
    [{top:10, left:180, width:40, height:40}] in the page
    [{top:0, left:0, width:400, height:600}] gets [tooltipTop = 66] and the
    arrow on top. *)
Theorem C3_vertical_rules_in_order :
  (forall t p : ClientRect,
     let r := verticalPositioning_ t p initialPlacement in
     (MIN_VERTICAL_SPACE < spaceAbove t p ->
        tooltipTop r = Some (fl (Rect.top t - 56)) /\ arrowOnTop r = false) /\
     (spaceAbove t p <= MIN_VERTICAL_SPACE ->
      MIN_VERTICAL_SPACE < spaceBelow t p ->
        tooltipTop r = Some (fl (Rect.bottom t + 16)) /\
        arrowOnTop r = true) /\
     (spaceAbove t p <= MIN_VERTICAL_SPACE ->
      spaceBelow t p <= MIN_VERTICAL_SPACE ->
        tooltipTop r = Some (fl (Rect.height p / 2)) /\ arrowOnTop r = false)) /\
  (let r := verticalPositioning_ (Rect.mk 10 180 40 40) (Rect.mk 0 0 400 600)
              initialPlacement in
   tooltipTop r = Some 66 /\ arrowOnTop r = true).
Proof.
  split; [| by vm_compute].
  intros t p r. subst r. split; [| split].
  - intros Habove. by rewrite vertical_above.
  - intros Habove Hbelow. by rewrite vertical_below.
  - intros Habove Hbelow. by rewrite vertical_middle.
Qed.

Lemma C3_vertical_rules_in_order_witness :
  (let t := Rect.mk 10 180 40 40 in
   let p := Rect.mk 0 0 400 600 in
   let r := verticalPositioning_ t p initialPlacement in
   spaceAbove t p <= MIN_VERTICAL_SPACE /\
   MIN_VERTICAL_SPACE < spaceBelow t p /\
   tooltipTop r = Some (fl (Rect.bottom t + 16)) /\
   arrowOnTop r = true) /\
  (let t := Rect.mk (fl 56.1) 180 40 40 in
   let p := Rect.mk (fl 0.1) 0 400 600 in
   let r := verticalPositioning_ t p initialPlacement in
   spaceAbove t p <= MIN_VERTICAL_SPACE /\
   MIN_VERTICAL_SPACE < spaceBelow t p /\
   tooltipTop r = Some (fl (Rect.bottom t + 16)) /\
   arrowOnTop r = true).
Proof.
  cbv zeta. split.
  - assert (Hle : spaceAbove (Rect.mk 10 180 40 40) (Rect.mk 0 0 400 600)
                  <= MIN_VERTICAL_SPACE) by (by vm_compute).
    assert (Hlt : MIN_VERTICAL_SPACE
                  < spaceBelow (Rect.mk 10 180 40 40) (Rect.mk 0 0 400 600))
      by (by vm_compute).
    split; [exact Hle |]. split; [exact Hlt |].
    exact (proj1 (proj2 (proj1 C3_vertical_rules_in_order _ _)) Hle Hlt).
  - assert (Hle : spaceAbove (Rect.mk (fl 56.1) 180 40 40)
                    (Rect.mk (fl 0.1) 0 400 600)
                  <= MIN_VERTICAL_SPACE) by (by vm_compute).
    assert (Hlt : MIN_VERTICAL_SPACE
                  < spaceBelow (Rect.mk (fl 56.1) 180 40 40)
                      (Rect.mk (fl 0.1) 0 400 600))
      by (by vm_compute).
    split; [exact Hle |]. split; [exact Hlt |].
    exact (proj1 (proj2 (proj1 C3_vertical_rules_in_order _ _)) Hle Hlt).
Defined.

(** ** Horizontal placement *)

Lemma horizontal_tooltipLeft tw aw t p st :
  tooltipLeft (horizontalPositioning_ tw aw t p st)
  = Some (Qmax EDGE_PADDING (Qmin (centeredLeft tw t p) (maxHorizontalLeft tw p))
          + Rect.left p).
Proof. reflexivity. Qed.

Lemma horizontal_arrowLeftOffset tw aw t p st :
  arrowLeftOffset (horizontalPositioning_ tw aw t p st)
  = Some (Qmin
            (Qabs (targetMidpoint t p
                   - Qmax EDGE_PADDING
                       (Qmin (centeredLeft tw t p) (maxHorizontalLeft tw p))
                   - aw / 2))
            (tw - EDGE_PADDING * 3)).
Proof. reflexivity. Qed.

(** C4, as the spec states it, fails: in a page 100 wide, a tooltip 90 wide
    centered on a target at 40..60 would start at 5, beyond the bound
    100 - 90 - 8 = 2, yet the result is [EDGE_PADDING], not the bound. *)
Lemma C4_counterexample :
  let t := Rect.mk 300 40 20 40 in
  let p := Rect.mk 0 0 100 600 in
  let r := horizontalPositioning_ 90 10 t p initialPlacement in
  maxHorizontalLeft 90 p < centeredLeft 90 t p /\
  (exists q, tooltipLeft r = Some q /\ q == EDGE_PADDING + Rect.left p) /\
  ~ (exists q, tooltipLeft r = Some q /\
               q == maxHorizontalLeft 90 p + Rect.left p).
Proof.
  cbv zeta. split; [reflexivity |].
  split; [eexists; split; reflexivity |].
  intros (q & Hq & Heq). vm_compute in Hq. injection Hq as <-.
  vm_compute in Heq. discriminate.
Qed.

(** C4, amended: the tooltip is centered on the target's midpoint, then
    bounded above by [pageWidth - tooltipWidth - EDGE_PADDING] and after
    that below by [EDGE_PADDING], and the page's left is added.  So a
    centered left beyond the upper bound gives that bound provided the
    bound is at least [EDGE_PADDING]; a centered left, or an upper bound,
    below [EDGE_PADDING] gives [EDGE_PADDING]; a centered left within the
    two bounds is kept. *)
Theorem C4_horizontal_clamp (tw aw : Q) (t p : ClientRect)
    (st : PlacementState) :
  let r := horizontalPositioning_ tw aw t p st in
  (maxHorizontalLeft tw p < centeredLeft tw t p ->
   EDGE_PADDING <= maxHorizontalLeft tw p ->
     exists q, tooltipLeft r = Some q /\
               q == maxHorizontalLeft tw p + Rect.left p) /\
  (centeredLeft tw t p < EDGE_PADDING \/ maxHorizontalLeft tw p < EDGE_PADDING ->
     exists q, tooltipLeft r = Some q /\ q == EDGE_PADDING + Rect.left p) /\
  (EDGE_PADDING <= centeredLeft tw t p <= maxHorizontalLeft tw p ->
     exists q, tooltipLeft r = Some q /\
               q == centeredLeft tw t p + Rect.left p).
Proof.
  intros r. subst r. rewrite horizontal_tooltipLeft.
  set (c := centeredLeft tw t p). set (m := maxHorizontalLeft tw p).
  pose proof (Q.min_spec c m) as Hmin.
  pose proof (Q.max_spec EDGE_PADDING (Qmin c m)) as Hmax.
  split; [| split].
  - intros Hlt Hle. eexists; split; [reflexivity |].
    destruct Hmin as [[? Hmin] | [? Hmin]], Hmax as [[? Hmax] | [? Hmax]];
      rewrite Hmax; lra.
  - intros Hlt. eexists; split; [reflexivity |].
    destruct Hmin as [[? Hmin] | [? Hmin]], Hmax as [[? Hmax] | [? Hmax]];
      rewrite Hmax; destruct Hlt; lra.
  - intros [Hlo Hhi]. eexists; split; [reflexivity |].
    destruct Hmin as [[? Hmin] | [? Hmin]], Hmax as [[? Hmax] | [? Hmax]];
      rewrite Hmax; lra.
Qed.

Lemma C4_horizontal_clamp_witness :
  let t := Rect.mk 300 350 40 40 in
  let p := Rect.mk 0 20 400 600 in
  let r := horizontalPositioning_ 200 10 t p initialPlacement in
  maxHorizontalLeft 200 p < centeredLeft 200 t p /\
  EDGE_PADDING <= maxHorizontalLeft 200 p /\
  exists q, tooltipLeft r = Some q /\
            q == maxHorizontalLeft 200 p + Rect.left p.
Proof.
  cbv zeta.
  assert (Hlt : maxHorizontalLeft 200 (Rect.mk 0 20 400 600)
                < centeredLeft 200 (Rect.mk 300 350 40 40)
                    (Rect.mk 0 20 400 600)) by reflexivity.
  assert (Hle : EDGE_PADDING <= maxHorizontalLeft 200 (Rect.mk 0 20 400 600))
    by discriminate.
  split; [exact Hlt |]. split; [exact Hle |].
  exact (proj1 (C4_horizontal_clamp 200 10 _ _ initialPlacement) Hlt Hle).
Defined.

(** C5, as the spec states it, fails twice.  For a target at 0..16 and a
    tooltip 200 wide (arrow 10 wide) the tooltip is clamped to the left
    padding, right under the target's midpoint; the arrow offset is 5 where
    the specification's formula gives 0.  For a tooltip 10 wide the arrow
    offset is negative. *)
Lemma C5_counterexample :
  let t := Rect.mk 300 0 16 40 in
  let p := Rect.mk 0 0 400 600 in
  let r := horizontalPositioning_ 200 10 t p initialPlacement in
  let r' := horizontalPositioning_ 10 10 t p initialPlacement in
  (exists l a, tooltipLeft r = Some l /\ arrowLeftOffset r = Some a /\
               a == 5 /\
               ~ a == spec_arrowLeftOffset 200 10 t p (l - Rect.left p)) /\
  (exists a, arrowLeftOffset r' = Some a /\ a < 0).
Proof.
  cbv zeta. split.
  - eexists; eexists. split; [reflexivity |]. split; [reflexivity |].
    split; [reflexivity |]. vm_compute. discriminate.
  - eexists. split; [reflexivity |]. reflexivity.
Qed.

(** C5, amended: the arrow offset is the absolute value of
    (target midpoint - clamped tooltip left - half the arrow width), bounded
    above by [tooltipWidth - 3 * EDGE_PADDING]; there is no lower clamp.  It
    never exceeds [tooltipWidth - 24], and it is not negative when the
    tooltip is at least 24 wide. *)
Theorem C5_arrow_offset (tw aw : Q) (t p : ClientRect) (st : PlacementState) :
  let r := horizontalPositioning_ tw aw t p st in
  exists l a,
    tooltipLeft r = Some (l + Rect.left p) /\
    arrowLeftOffset r = Some a /\
    a = Qmin (Qabs (targetMidpoint t p - l - aw / 2))
             (tw - EDGE_PADDING * 3) /\
    a <= tw - 24 /\
    (24 <= tw -> 0 <= a).
Proof.
  intros r. subst r.
  rewrite horizontal_tooltipLeft, horizontal_arrowLeftOffset.
  eexists; eexists. split; [reflexivity |]. split; [reflexivity |].
  split; [reflexivity |].
  assert (Hbound : tw - EDGE_PADDING * 3 == tw - 24)
    by (unfold EDGE_PADDING; lra).
  split.
  - rewrite <- Hbound. apply Q.le_min_r.
  - intros Hwide. apply Q.min_glb; [apply Qabs_nonneg | lra].
Qed.

Lemma C5_arrow_offset_witness :
  let t := Rect.mk 300 0 16 40 in
  let p := Rect.mk 0 0 400 600 in
  let r := horizontalPositioning_ 200 10 t p initialPlacement in
  24 <= 200 /\ exists a, arrowLeftOffset r = Some a /\ 0 <= a.
Proof.
  cbv zeta.
  assert (Hwide : 24 <= 200) by discriminate.
  split; [exact Hwide |].
  destruct (C5_arrow_offset 200 10 (Rect.mk 300 0 16 40)
              (Rect.mk 0 0 400 600) initialPlacement)
    as (l & a & _ & Ha & _ & _ & Hpos).
  exists a. split; [exact Ha | exact (Hpos Hwide)].
Defined.

(** ** Centering transform *)

(** C6: the transform that centers the target in the page is
    [translateY = (pageHeight/2 - targetHeight/2) - (targetTop - pageTop)]
    and
    [translateX = (targetLeft - pageLeft) - (pageWidth/2 - targetWidth/2)],
    and it is the transform [animateExpanded_] writes to the target.  The
    target [{top:100, left:50, width:100, height:100}] in the page
    [{top:0, left:0, width:400, height:400}] gets [translateY = 50] and
    [translateX = -100]. *)
Theorem C6_centering_transform :
  (forall t p : ClientRect,
     translateY (measureExpanded t p)
     = (Rect.height p / 2 - Rect.height t / 2) - (Rect.top t - Rect.top p) /\
     translateX (measureExpanded t p)
     = (Rect.left t - Rect.left p) - (Rect.width p / 2 - Rect.width t / 2)) /\
  (forall (c : Component) (target : Element) (page : StoryPage),
     let c' := exec (animateExpanded_ target)
                 (set_activePage (Some page) c) in
     completion (animateExpanded_ target) (set_activePage (Some page) c)
     = Normal tt /\
     head (log c')
     = Some (TargetSetTransform (el_id target)
               (measureExpanded (boundingRect target) (pageRect page)))) /\
  (let s := measureExpanded (Rect.mk 100 50 100 100) (Rect.mk 0 0 400 400) in
   translateY s == 50 /\ translateX s == -100).
Proof.
  split; [| split].
  - intros t p. split; reflexivity.
  - intros c target page. split; reflexivity.
  - split; reflexivity.
Qed.

(** ** Running methods *)

Lemma exec_bind {A B} (m : M A) (f : A -> M B) c :
  exec (m ≫= f) c =
  match m c with
  | (Normal a, c') => exec (f a) c'
  | (Throw _, c') => c'
  end.
Proof.
  unfold exec, mbind, M_bind. by destruct (m c) as [[a | e] c'].
Qed.

Lemma bind_normal_inv {A B} (m : M A) (f : A -> M B) c b c' :
  (m ≫= f) c = (Normal b, c') ->
  exists a c1, m c = (Normal a, c1) /\ f a c1 = (Normal b, c').
Proof.
  unfold mbind, M_bind. destruct (m c) as [[a | e] c1]; [eauto | discriminate].
Qed.

Section Keeps.
Context {B : Type} (proj : Component -> B).

Lemma keeps_ret {A} (a : A) : keeps proj (mret a).
Proof. by intros c. Qed.

Lemma keeps_bind {A A'} (m : M A) (f : A -> M A') :
  keeps proj m -> (forall a, keeps proj (f a)) -> keeps proj (m ≫= f).
Proof.
  intros Hm Hf c. rewrite exec_bind. specialize (Hm c). unfold exec in Hm.
  destruct (m c) as [[a | e] c']; simpl in Hm; [| done].
  by rewrite Hf.
Qed.

Lemma keeps_get : keeps proj get.
Proof. by intros c. Qed.

Lemma keeps_throw {A} e : keeps proj (@throw A e).
Proof. by intros c. Qed.

Lemma keeps_modify f :
  (forall c, proj (f c) = proj c) -> keeps proj (modify f).
Proof. intros Hf c. apply Hf. Qed.

Lemma keeps_emit e :
  (forall c, proj (set_log (e :: log c) c) = proj c) -> keeps proj (emit e).
Proof. intros He c. apply He. Qed.

Lemma keeps_devAssert {A} (o : option A) : keeps proj (devAssert o).
Proof. by destruct o. Qed.

Lemma keeps_deref {A} (o : option A) : keeps proj (deref o).
Proof. by destruct o. Qed.

Lemma keeps_update_tooltip f :
  (forall c t, tooltip_ c = Some t ->
               proj (set_tooltip_ (Some (f t)) c) = proj c) ->
  keeps proj (update_tooltip f).
Proof.
  intros Hf c. unfold update_tooltip, exec, mbind, M_bind, get. simpl.
  destruct (tooltip_ c) eqn:Htip; simpl; [by apply Hf | done].
Qed.

Lemma keeps_update_page f :
  (forall c p, proj (set_activePage p c) = proj c) ->
  keeps proj (update_page f).
Proof. intros Hf c. apply Hf. Qed.

Lemma keeps_scheduled (m : M unit) : keeps proj m -> keeps proj (scheduled m).
Proof. intros Hm c. apply Hm. Qed.

(** What follows a step that keeps [proj] does not matter for [proj] if it
    keeps [proj] too; so the observation after a sequence is the
    observation after its first step. *)
Lemma exec_bind_keeps {A A'} (m : M A) (f : A -> M A') c :
  (forall a, keeps proj (f a)) ->
  proj (exec (m ≫= f) c) = proj (exec m c).
Proof.
  intros Hf. rewrite exec_bind. unfold exec.
  destruct (m c) as [[a | e] c']; simpl; [apply Hf | done].
Qed.

End Keeps.

(** One step of a [keeps] derivation: the monad's operations, then a case
    analysis on what the method branches on. *)
Ltac keeps_step :=
  lazymatch goal with
  | |- keeps _ (mret _) => apply keeps_ret
  | |- keeps _ (_ ≫= _) => apply keeps_bind; [| intros ?]
  | |- keeps _ get => apply keeps_get
  | |- keeps _ (throw _) => apply keeps_throw
  | |- keeps _ (devAssert _) => apply keeps_devAssert
  | |- keeps _ (deref _) => apply keeps_deref
  | |- keeps _ (modify _) => apply keeps_modify; intros; reflexivity
  | |- keeps _ (emit _) => apply keeps_emit; intros; reflexivity
  | |- keeps _ (update_tooltip _) =>
      apply keeps_update_tooltip;
      let Htip := fresh "Htip" in
      intros ? ? Htip;
      first [ reflexivity
            | cbv beta delta [tooltipHref tooltipExpandListener tooltipContent
                              tooltipView tooltipAttributes tooltipText
                              tooltipIcon];
              simpl; rewrite Htip; reflexivity ]
  | |- keeps _ (update_page _) => apply keeps_update_page; intros; reflexivity
  | |- keeps _ (scheduled _) => apply keeps_scheduled
  | |- keeps _ (match ?x with _ => _ end) => destruct x
  | |- keeps _ (if ?x then _ else _) => destruct x
  end.

Create HintDb keeps.

Ltac keeps_tac := repeat first [ keeps_step | solve [auto with keeps nocore] ].

Section Preserves.
Context (P : Component -> Prop).

Lemma preserves_ret {A} (a : A) : preserves P (mret a).
Proof. by intros c. Qed.

Lemma preserves_bind {A A'} (m : M A) (f : A -> M A') :
  preserves P m -> (forall a, preserves P (f a)) -> preserves P (m ≫= f).
Proof.
  intros Hm Hf c Hc. rewrite exec_bind. specialize (Hm c Hc).
  unfold exec in Hm. destruct (m c) as [[a | e] c']; simpl in Hm; [| done].
  by apply Hf.
Qed.

Lemma preserves_get : preserves P get.
Proof. by intros c. Qed.

Lemma preserves_throw {A} e : preserves P (@throw A e).
Proof. by intros c. Qed.

Lemma preserves_modify f :
  (forall c, P c -> P (f c)) -> preserves P (modify f).
Proof. intros Hf c. apply Hf. Qed.

Lemma preserves_devAssert {A} (o : option A) : preserves P (devAssert o).
Proof. destruct o; [apply preserves_ret | apply preserves_throw]. Qed.

Lemma preserves_deref {A} (o : option A) : preserves P (deref o).
Proof. destruct o; [apply preserves_ret | apply preserves_throw]. Qed.

Lemma preserves_update_tooltip f :
  (forall c t, P c -> P (set_tooltip_ (Some (f t)) c)) ->
  preserves P (update_tooltip f).
Proof.
  intros Hf c Hc. unfold update_tooltip, exec, mbind, M_bind, get. simpl.
  destruct (tooltip_ c); simpl; [by apply Hf | done].
Qed.

Lemma preserves_scheduled (m : M unit) :
  preserves P m -> preserves P (scheduled m).
Proof. intros Hm c. apply Hm. Qed.

End Preserves.

Lemma ensures_bind {A B} (m : M A) (f : A -> M B) Q :
  (forall a, ensures (f a) Q) -> ensures (m ≫= f) Q.
Proof.
  intros Hf c b c' Hrun.
  apply bind_normal_inv in Hrun as (a & c1 & _ & Hrun). by eapply Hf.
Qed.

Lemma bumps_of_keeps {A} k (m : M A) : keeps placements m -> bumps k m.
Proof. intros Hm c. rewrite Hm. lia. Qed.

Lemma bumps_bind_l {A B} k (m : M A) (f : A -> M B) :
  keeps placements m -> (forall a, bumps k (f a)) -> bumps k (m ≫= f).
Proof.
  intros Hm Hf c. rewrite exec_bind. specialize (Hm c). unfold exec in Hm.
  destruct (m c) as [[a | e] c']; simpl in Hm; rewrite <- Hm; [apply Hf | lia].
Qed.

Lemma bumps_bind_r {A B} k (m : M A) (f : A -> M B) :
  bumps k m -> (forall a, keeps placements (f a)) -> bumps k (m ≫= f).
Proof.
  intros Hm Hf c. rewrite exec_bind. specialize (Hm c). unfold exec in Hm.
  destruct (m c) as [[a | e] c']; simpl in Hm; [by rewrite Hf | done].
Qed.

(** One step of a [preserves] derivation; [side] proves that a write
    keeps the property. *)
Ltac preserves_step side :=
  lazymatch goal with
  | |- preserves _ (mret _) => apply preserves_ret
  | |- preserves _ (_ ≫= _) => apply preserves_bind; [| intros ?]
  | |- preserves _ get => apply preserves_get
  | |- preserves _ (throw _) => apply preserves_throw
  | |- preserves _ (devAssert _) => apply preserves_devAssert
  | |- preserves _ (deref _) => apply preserves_deref
  | |- preserves _ (modify _) => apply preserves_modify; intros ?; side
  | |- preserves _ (emit _) => apply preserves_modify; intros ?; side
  | |- preserves _ (update_page _) => apply preserves_modify; intros ?; side
  | |- preserves _ (update_tooltip _) =>
      apply preserves_update_tooltip; intros ? ?; side
  | |- preserves _ (scheduled _) => apply preserves_scheduled
  | |- preserves _ (match ?x with _ => _ end) => destruct x
  | |- preserves _ (if ?x then _ else _) => destruct x
  end.

Ltac preserves_tac side := repeat preserves_step side.

(** ** The state machine *)

Section StateMachine.
Context `{Helpers}.

(** Only [setState_] assigns [this.state_]. *)

Lemma keeps_state_onUIStateUpdate_ ui : keeps state_ (onUIStateUpdate_ ui).
Proof. unfold onUIStateUpdate_. keeps_tac. Qed.
Hint Extern 0 (keeps state_ (onUIStateUpdate_ _)) =>
  simple apply keeps_state_onUIStateUpdate_ : keeps.

Lemma keeps_state_buildFocusedState_ : keeps state_ buildFocusedState_.
Proof. unfold buildFocusedState_, buildFocusedStateTemplate_. keeps_tac. Qed.
Hint Extern 0 (keeps state_ buildFocusedState_) =>
  simple apply keeps_state_buildFocusedState_ : keeps.

Lemma keeps_state_getElementHref_ t : keeps state_ (getElementHref_ t).
Proof. unfold getElementHref_. keeps_tac. Qed.
Hint Extern 0 (keeps state_ (getElementHref_ _)) =>
  simple apply keeps_state_getElementHref_ : keeps.

Lemma keeps_state_updateTooltipBehavior_ t :
  keeps state_ (updateTooltipBehavior_ t).
Proof. unfold updateTooltipBehavior_. keeps_tac. Qed.
Hint Extern 0 (keeps state_ (updateTooltipBehavior_ _)) =>
  simple apply keeps_state_updateTooltipBehavior_ : keeps.

Lemma keeps_state_updateTooltipEl_ t : keeps state_ (updateTooltipEl_ t).
Proof.
  unfold updateTooltipEl_, updateTooltipText_, updateTooltipIcon_,
    positionTooltip_.
  keeps_tac.
Qed.
Hint Extern 0 (keeps state_ (updateTooltipEl_ _)) =>
  simple apply keeps_state_updateTooltipEl_ : keeps.

Lemma keeps_state_onFocusedStateUpdate_ target :
  keeps state_ (onFocusedStateUpdate_ target).
Proof. unfold onFocusedStateUpdate_. keeps_tac. Qed.
Hint Extern 0 (keeps state_ (onFocusedStateUpdate_ _)) =>
  simple apply keeps_state_onFocusedStateUpdate_ : keeps.

Lemma keeps_state_toggleExpandedView_ target :
  keeps state_ (toggleExpandedView_ target).
Proof.
  unfold toggleExpandedView_, animateExpanded_,
    buildAndAppendExpandedViewOverlay_.
  keeps_tac.
Qed.
Hint Extern 0 (keeps state_ (toggleExpandedView_ _)) =>
  simple apply keeps_state_toggleExpandedView_ : keeps.

(** [setState_] to [HIDDEN] or [FOCUSED] leaves the component in that
    state, however the update of the focused layer completes. *)
Lemma setState_sets_state s target c :
  s = ComponentState.HIDDEN \/ s = ComponentState.FOCUSED ->
  state_ (exec (setState_ s target) c) = s.
Proof.
  intros Hs. unfold setState_.
  assert (Hb : (s =? ComponentState.FOCUSED)%Z
               || (s =? ComponentState.HIDDEN)%Z = true)
    by (destruct Hs as [-> | ->]; reflexivity).
  rewrite Hb, exec_bind. simpl.
  apply keeps_state_onFocusedStateUpdate_.
Qed.

Lemma exec_get_bind {A} (f : Component -> M A) c :
  exec (get ≫= f) c = exec (f c) c.
Proof. by rewrite exec_bind. Qed.

Lemma state_dispatch (c : Component) :
  (state_ c =? ComponentState.FOCUSED)%Z || (state_ c =? ComponentState.HIDDEN)%Z
  = true <->
  state_ c = ComponentState.HIDDEN \/ state_ c = ComponentState.FOCUSED.
Proof.
  rewrite orb_true_iff, !Z.eqb_eq. tauto.
Qed.

Lemma null_update_hides c :
  state_ c = ComponentState.HIDDEN \/ state_ c = ComponentState.FOCUSED ->
  state_ (exec (onEmbeddedComponentUpdate_ None) c) = ComponentState.HIDDEN.
Proof.
  intros Hs. unfold onEmbeddedComponentUpdate_.
  rewrite exec_get_bind. apply state_dispatch in Hs. rewrite Hs.
  apply setState_sets_state. by left.
Qed.

(** C1: a null target received in state [HIDDEN] or [FOCUSED] leaves the
    component [HIDDEN]; in state [EXPANDED] an update whose target is null,
    or is an element that is not the close button of the expanded view,
    changes nothing at all and has no effect; an update whose target is the
    close button leaves the component [HIDDEN]. *)
Theorem C1_target_updates :
  (forall c,
     state_ c = ComponentState.HIDDEN \/ state_ c = ComponentState.FOCUSED ->
     state_ (exec (onEmbeddedComponentUpdate_ None) c)
     = ComponentState.HIDDEN) /\
  (forall c target,
     state_ c = ComponentState.EXPANDED ->
     (forall t, target = Some t -> matches t sel_CLOSE_BUTTON = false) ->
     onEmbeddedComponentUpdate_ target c = (Normal tt, c)) /\
  (forall c t,
     state_ c = ComponentState.EXPANDED ->
     matches t sel_CLOSE_BUTTON = true ->
     state_ (exec (onEmbeddedComponentUpdate_ (Some t)) c)
     = ComponentState.HIDDEN).
Proof.
  split; [| split].
  - apply null_update_hides.
  - intros c target Hs Hclose. unfold onEmbeddedComponentUpdate_.
    unfold mbind, M_bind, get. rewrite Hs. simpl.
    unfold maybeCloseExpandedView_. destruct target as [t |]; [| done].
    by rewrite (Hclose t eq_refl).
  - intros c t Hs Hclose. unfold onEmbeddedComponentUpdate_.
    rewrite exec_get_bind, Hs.
    change (state_ (exec (maybeCloseExpandedView_ (Some t)) c)
            = ComponentState.HIDDEN).
    unfold maybeCloseExpandedView_. rewrite Hclose.
    rewrite exec_bind_keeps by (intros; keeps_tac).
    apply setState_sets_state. by left.
Qed.

Lemma unknownState_dispatch s :
  unknownState s ->
  (s =? ComponentState.FOCUSED)%Z || (s =? ComponentState.HIDDEN)%Z = false /\
  (s =? ComponentState.EXPANDED)%Z = false.
Proof.
  intros (Hh & Hf & He). rewrite orb_false_iff, !Z.eqb_neq. tauto.
Qed.

(** C8, amended: a state value outside the enum does not make the state
    machine throw.  [onEmbeddedComponentUpdate_] with such a current state,
    and [setState_] with such a requested state, log the warning
    "ComponentState ... does not exist" on the developer channel (both with
    the current state) and return normally; nothing else changes. *)
Theorem C8_unknown_state_warns :
  (forall c target,
     unknownState (state_ c) ->
     onEmbeddedComponentUpdate_ target c
     = (Normal tt,
        set_log (DevWarnStateDoesNotExist (state_ c) :: log c) c)) /\
  (forall c s target,
     unknownState s ->
     setState_ s target c
     = (Normal tt,
        set_log (DevWarnStateDoesNotExist (state_ c) :: log c) c)).
Proof.
  split.
  - intros c target Hs. apply unknownState_dispatch in Hs as [Hfh He].
    unfold onEmbeddedComponentUpdate_, mbind, M_bind, get.
    by rewrite Hfh, He.
  - intros c s target Hs. apply unknownState_dispatch in Hs as [Hfh He].
    unfold setState_. by rewrite Hfh, He.
Qed.

(** ** What hiding the tooltip clears *)

Lemma keeps_tooltip_onFocusedStateUpdate_None :
  keeps tooltip_ (onFocusedStateUpdate_ None).
Proof. unfold onFocusedStateUpdate_. keeps_tac. Qed.

Lemma keeps_tooltip_setState_HIDDEN :
  keeps tooltip_ (setState_ ComponentState.HIDDEN None).
Proof.
  unfold setState_. simpl.
  apply keeps_bind; [keeps_tac | intros _].
  apply keeps_tooltip_onFocusedStateUpdate_None.
Qed.

Lemma clearTooltip_run c tip :
  tooltip_ c = Some tip ->
  clearTooltip_ c
  = (Normal tt,
     set_tooltip_
       (Some (tt_set_attributes (delete "href"%string (tt_attributes tip))
                (tt_set_expandListener false tip))) c).
Proof.
  intros Htip. unfold clearTooltip_, update_tooltip, mbind, M_bind, get.
  simpl. rewrite Htip. reflexivity.
Qed.

Lemma closeFocusedState_tooltip c tip :
  tooltip_ c = Some tip ->
  tooltip_ (exec closeFocusedState_ c)
  = Some (tt_set_attributes (delete "href"%string (tt_attributes tip))
            (tt_set_expandListener false tip)).
Proof.
  intros Htip. unfold closeFocusedState_.
  rewrite exec_bind, (clearTooltip_run c tip Htip).
  by rewrite keeps_tooltip_setState_HIDDEN.
Qed.

Lemma onEmbeddedComponentUpdate_null_run c ov :
  state_ c = ComponentState.HIDDEN \/ state_ c = ComponentState.FOCUSED ->
  focusedStateOverlay_ c = Some ov ->
  onEmbeddedComponentUpdate_ None c
  = (Normal tt,
     set_focusedStateOverlay_ (Some (mkOverlay true (ov_desktop ov)))
       (set_log (MutateElement RefFocusedOverlay
                 :: Dispatch TOGGLE_EMBEDDED_COMPONENT None :: log c)
          (set_state_ ComponentState.HIDDEN c))).
Proof.
  intros Hs Hov. apply state_dispatch in Hs.
  unfold onEmbeddedComponentUpdate_, mbind, M_bind, get. rewrite Hs.
  unfold setState_, onFocusedStateUpdate_, mbind, M_bind, get. simpl.
  by rewrite Hov.
Qed.

Lemma expandedViewClose_run c t tip ov page :
  state_ c = ComponentState.EXPANDED ->
  matches t sel_CLOSE_BUTTON = true ->
  tooltip_ c = Some tip ->
  focusedStateOverlay_ c = Some ov ->
  activePage c = Some page ->
  (is_Some (expandedViewOverlay_ c) -> is_Some (previousTarget_ c)) ->
  let r := onEmbeddedComponentUpdate_ (Some t) c in
  r.1 = Normal tt /\
  tooltip_ r.2 = Some (tt_set_expandListener false tip).
Proof.
  intros Hs Hclose Htip Hov Hpage Hprev.
  unfold onEmbeddedComponentUpdate_, mbind, M_bind, get. rewrite Hs.
  change (let r := maybeCloseExpandedView_ (Some t) c in
          r.1 = Normal tt /\
          tooltip_ r.2 = Some (tt_set_expandListener false tip)).
  unfold maybeCloseExpandedView_. rewrite Hclose. clear Hprev.
  destruct c as [s prev sr o tp a evo p tw aw ui lg].
  simpl in Hs, Htip, Hov, Hpage. subst s tp o p.
  by destruct evo as [e |], prev as [pt |].
Qed.

(** ** What keeps the tooltip's link and listener *)

Lemma linkKept_same_tooltip c c' : tooltip_ c' = tooltip_ c -> linkKept c c'.
Proof.
  intros Heq. unfold linkKept, tooltipExpandListener, tooltipHref.
  by rewrite Heq.
Qed.

Lemma keeps_tooltip_onUIStateUpdate_ ui : keeps tooltip_ (onUIStateUpdate_ ui).
Proof. unfold onUIStateUpdate_. keeps_tac. Qed.

Lemma keeps_tooltip_toggleExpandedView_ target :
  keeps tooltip_ (toggleExpandedView_ target).
Proof.
  unfold toggleExpandedView_, animateExpanded_,
    buildAndAppendExpandedViewOverlay_.
  keeps_tac.
Qed.

Lemma keeps_tooltip_onExpandComponent_ : keeps tooltip_ onExpandComponent_.
Proof.
  unfold onExpandComponent_, setState_. simpl.
  pose proof keeps_tooltip_onFocusedStateUpdate_None.
  pose proof keeps_tooltip_toggleExpandedView_.
  keeps_tac.
Qed.

Lemma keeps_listener_updateTooltipEl_ t :
  keeps tooltipExpandListener (updateTooltipEl_ t).
Proof.
  unfold updateTooltipEl_, updateTooltipText_, updateTooltipIcon_,
    positionTooltip_, getElementHref_.
  keeps_tac.
Qed.

Lemma keeps_href_updateTooltipEl_ t : keeps tooltipHref (updateTooltipEl_ t).
Proof.
  unfold updateTooltipEl_, updateTooltipText_, updateTooltipIcon_,
    positionTooltip_, getElementHref_.
  keeps_tac.
Qed.

Lemma updateTooltipBehavior_linkKept t c :
  hrefKept -> linkKept c (exec (updateTooltipBehavior_ t) c).
Proof.
  intros Hkept. unfold updateTooltipBehavior_.
  destruct (matches t sel_LINK).
  - destruct (tooltip_ c) as [tip |] eqn:Htip.
    + unfold exec, getElementHref_, update_tooltip, mbind, M_bind, get.
      simpl. rewrite Htip. simpl.
      destruct (isProtocolValid (getAttribute t "href")); simpl;
        rewrite Htip; simpl;
        (split; unfold tooltipExpandListener, tooltipHref; simpl;
         rewrite Htip; simpl; [done | apply Hkept]).
    + apply linkKept_same_tooltip.
      unfold exec, mbind, M_bind, get. simpl. by rewrite Htip.
  - destruct (existsb _ _); [| by apply linkKept_same_tooltip].
    destruct (tooltip_ c) as [tip |] eqn:Htip.
    + unfold exec, update_tooltip, mbind, M_bind, get. simpl.
      rewrite Htip. simpl.
      split; unfold tooltipExpandListener, tooltipHref; simpl;
        rewrite Htip; simpl; done.
    + apply linkKept_same_tooltip.
      unfold exec, update_tooltip, mbind, M_bind, get. simpl.
      by rewrite Htip.
Qed.

Lemma onFocusedStateUpdate_linkKept t c :
  hrefKept ->
  is_Some (focusedStateOverlay_ c) ->
  linkKept c (exec (onFocusedStateUpdate_ (Some t)) c).
Proof.
  intros Hkept [ov Hov]. unfold onFocusedStateUpdate_.
  rewrite exec_get_bind, Hov, exec_bind. simpl.
  pose proof (keeps_listener_updateTooltipEl_ t).
  pose proof (keeps_href_updateTooltipEl_ t).
  destruct (updateTooltipBehavior_linkKept t c Hkept) as [Hl Hh].
  split; intros Hc.
  - rewrite (exec_bind_keeps tooltipExpandListener) by (intros; keeps_tac).
    by apply Hl.
  - rewrite (exec_bind_keeps tooltipHref) by (intros; keeps_tac).
    by apply Hh.
Qed.

Lemma handle_linkKept c i :
  hrefKept ->
  (is_Some (tooltip_ c) -> is_Some (focusedStateOverlay_ c)) ->
  ~ clearingInput c i ->
  linkKept c (exec (handle i) c).
Proof.
  intros Hkept Hbuilt Hclear. destruct i as [target | ui | e | inside |]; simpl.
  - unfold onEmbeddedComponentUpdate_. rewrite exec_get_bind.
    destruct ((state_ c =? ComponentState.FOCUSED)%Z
              || (state_ c =? ComponentState.HIDDEN)%Z) eqn:Hfh.
    + destruct target as [t |].
      * unfold setState_. simpl. rewrite exec_bind. simpl.
        destruct (focusedStateOverlay_ c) as [ov |] eqn:Hov.
        -- apply (onFocusedStateUpdate_linkKept t
                    (set_state_ ComponentState.FOCUSED c) Hkept).
           simpl. by rewrite Hov.
        -- destruct (tooltip_ c) as [tip |] eqn:Htip.
           ++ by destruct Hbuilt as [? ?].
           ++ split; unfold tooltipExpandListener, tooltipHref;
                rewrite Htip; simpl; [done | by intros [? ?]].
      * apply linkKept_same_tooltip. apply keeps_tooltip_setState_HIDDEN.
    + destruct (state_ c =? ComponentState.EXPANDED)%Z eqn:He.
      * unfold maybeCloseExpandedView_. destruct target as [t |]; [| done].
        destruct (matches t sel_CLOSE_BUTTON) eqn:Hm.
        -- exfalso. apply Hclear. right; right. exists t.
           by apply Z.eqb_eq in He.
        -- by apply linkKept_same_tooltip.
      * by apply linkKept_same_tooltip.
  - apply linkKept_same_tooltip, keeps_tooltip_onUIStateUpdate_.
  - destruct e as [t |]; [| by apply linkKept_same_tooltip].
    exfalso. apply Hclear. right; left. by exists t.
  - destruct inside; [by apply linkKept_same_tooltip |].
    exfalso. apply Hclear. by left.
  - apply linkKept_same_tooltip, keeps_tooltip_onExpandComponent_.
Qed.

Lemma keeps_arrow_setState_HIDDEN :
  keeps tooltipArrow_ (setState_ ComponentState.HIDDEN None).
Proof. unfold setState_, onFocusedStateUpdate_. simpl. keeps_tac. Qed.

Lemma closing_input_clears c tip i :
  tooltip_ c = Some tip ->
  i = OverlayClick false \/ (exists t, i = CurrentPageIdUpdate (Some t)) ->
  let c' := exec (handle i) c in
  tooltipHref c' = None /\ tooltipExpandListener c' = Some false /\
  state_ c' = ComponentState.HIDDEN.
Proof.
  intros Htip Hi.
  assert (Hclose : forall c0, tooltip_ c0 = Some tip ->
            tooltipHref (exec closeFocusedState_ c0) = None /\
            tooltipExpandListener (exec closeFocusedState_ c0) = Some false /\
            state_ (exec closeFocusedState_ c0) = ComponentState.HIDDEN).
  { intros c0 Htip0. unfold tooltipHref, tooltipExpandListener.
    rewrite (closeFocusedState_tooltip c0 tip Htip0). simpl.
    split; [apply lookup_delete_eq |]. split; [done |].
    unfold closeFocusedState_.
    rewrite exec_bind, (clearTooltip_run c0 tip Htip0).
    apply setState_sets_state. by left. }
  destruct Hi as [-> | [t ->]]; simpl.
  - unfold onOutsideTooltipClick_. simpl. rewrite exec_bind. simpl.
    by apply Hclose.
  - by apply Hclose.
Qed.

(** C10: a null target update received while [FOCUSED] (or [HIDDEN]) hides
    the layer and leaves the tooltip, so its [href] attribute and its
    expand-click listener, and the arrow as they were: when the layer
    exists, the update sets its hidden class, records the state [HIDDEN],
    notifies the store, and changes nothing else.  A click outside the
    tooltip and a page change with a component embedded go through
    [closeFocusedState_] and leave the tooltip without [href] and without
    listener.  Closing the expanded view detaches the listener.  Every
    other input keeps an attached listener attached and a present [href]
    present. *)
Theorem C10_what_hiding_clears :
  (forall c,
     state_ c = ComponentState.HIDDEN \/ state_ c = ComponentState.FOCUSED ->
     let c' := exec (onEmbeddedComponentUpdate_ None) c in
     tooltip_ c' = tooltip_ c /\ tooltipArrow_ c' = tooltipArrow_ c /\
     state_ c' = ComponentState.HIDDEN) /\
  (forall c ov,
     state_ c = ComponentState.HIDDEN \/ state_ c = ComponentState.FOCUSED ->
     focusedStateOverlay_ c = Some ov ->
     onEmbeddedComponentUpdate_ None c
     = (Normal tt,
        set_focusedStateOverlay_ (Some (mkOverlay true (ov_desktop ov)))
          (set_log (MutateElement RefFocusedOverlay
                    :: Dispatch TOGGLE_EMBEDDED_COMPONENT None :: log c)
             (set_state_ ComponentState.HIDDEN c)))) /\
  (forall c tip i,
     tooltip_ c = Some tip ->
     i = OverlayClick false \/ (exists t, i = CurrentPageIdUpdate (Some t)) ->
     let c' := exec (handle i) c in
     tooltipHref c' = None /\ tooltipExpandListener c' = Some false /\
     state_ c' = ComponentState.HIDDEN) /\
  (forall c t tip ov page,
     state_ c = ComponentState.EXPANDED ->
     matches t sel_CLOSE_BUTTON = true ->
     tooltip_ c = Some tip ->
     focusedStateOverlay_ c = Some ov ->
     activePage c = Some page ->
     (is_Some (expandedViewOverlay_ c) -> is_Some (previousTarget_ c)) ->
     let c' := exec (handle (EmbeddedComponentUpdate (Some t))) c in
     completion (handle (EmbeddedComponentUpdate (Some t))) c = Normal tt /\
     tooltipExpandListener c' = Some false /\
     tooltipHref c' = tooltipHref c) /\
  (forall c i,
     hrefKept ->
     (is_Some (tooltip_ c) -> is_Some (focusedStateOverlay_ c)) ->
     ~ clearingInput c i ->
     linkKept c (exec (handle i) c)).
Proof.
  split; [| split; [| split; [| split]]].
  - intros c Hs c'. subst c'.
    pose proof (null_update_hides c Hs) as Hhidden.
    unfold onEmbeddedComponentUpdate_ in *.
    rewrite exec_get_bind in *. apply state_dispatch in Hs. rewrite Hs in *.
    split; [apply keeps_tooltip_setState_HIDDEN |].
    split; [apply keeps_arrow_setState_HIDDEN | exact Hhidden].
  - apply onEmbeddedComponentUpdate_null_run.
  - apply closing_input_clears.
  - intros c t tip ov page Hs Hm Htip Hov Hpage Hprev c'. subst c'.
    destruct (expandedViewClose_run c t tip ov page Hs Hm Htip Hov Hpage Hprev)
      as [Hdone Htip'].
    simpl. unfold completion, exec, tooltipExpandListener, tooltipHref.
    rewrite Htip', Htip. by rewrite Hdone.
  - apply handle_linkKept.
Qed.

(** ** A link whose url is refused *)

Lemma updateTooltipBehavior_invalid_link c t tip :
  tooltip_ c = Some tip ->
  matches t sel_LINK = true ->
  isProtocolValid (getAttribute t "href") = false ->
  updateTooltipBehavior_ t c
  = (Normal tt,
     set_tooltip_
       (Some (tt_set_attributes
                (addAttributesToElement (tt_attributes tip)
                   [("href"%string, JUndefined)]) tip))
       (set_log (UserError "The tooltip url is invalid" :: log c) c)).
Proof.
  intros Htip Hlink Hinvalid.
  unfold updateTooltipBehavior_, getElementHref_, update_tooltip, mbind,
    M_bind, get.
  rewrite Hlink, Hinvalid. simpl. rewrite Htip. simpl. by rewrite Htip.
Qed.

Lemma keeps_attributes_updateTooltipEl_ t :
  keeps tooltipAttributes (updateTooltipEl_ t).
Proof.
  unfold updateTooltipEl_, updateTooltipText_, updateTooltipIcon_,
    positionTooltip_, getElementHref_.
  keeps_tac.
Qed.

Ltac logged_side :=
  simpl; intros; first [ assumption | set_solver ].

Lemma preserves_logged_updateTooltipEl_ e t :
  preserves (fun c => e ∈ log c) (updateTooltipEl_ t).
Proof.
  unfold updateTooltipEl_, updateTooltipText_, updateTooltipIcon_,
    positionTooltip_, getElementHref_.
  preserves_tac logged_side.
Qed.

(** Whatever the attribute helper does, a link whose url is refused still
    reaches it: the tooltip's attributes are what the helper makes of
    [{href: undefined}], the error is logged for the user, and the
    component is [FOCUSED]. *)
Lemma invalid_link_reaches_helper c t tip :
  state_ c = ComponentState.HIDDEN \/ state_ c = ComponentState.FOCUSED ->
  is_Some (focusedStateOverlay_ c) ->
  tooltip_ c = Some tip ->
  matches t sel_LINK = true ->
  isProtocolValid (getAttribute t "href") = false ->
  let c' := exec (onEmbeddedComponentUpdate_ (Some t)) c in
  state_ c' = ComponentState.FOCUSED /\
  UserError "The tooltip url is invalid" ∈ log c' /\
  tooltipAttributes c'
  = Some (addAttributesToElement (tt_attributes tip)
            [("href"%string, JUndefined)]).
Proof.
  intros Hs [ov Hov] Htip Hlink Hinvalid c'. subst c'.
  apply state_dispatch in Hs. unfold onEmbeddedComponentUpdate_.
  rewrite exec_get_bind, Hs.
  split; [apply setState_sets_state; by right |].
  unfold setState_. simpl. rewrite exec_bind. simpl.
  unfold onFocusedStateUpdate_. rewrite exec_get_bind. simpl. rewrite Hov.
  rewrite exec_bind. simpl. rewrite exec_bind.
  rewrite (updateTooltipBehavior_invalid_link
             (set_state_ ComponentState.FOCUSED c) t tip Htip Hlink Hinvalid).
  pose proof (keeps_attributes_updateTooltipEl_ t) as Hkeeps.
  pose proof (preserves_logged_updateTooltipEl_
                (UserError "The tooltip url is invalid") t) as Hlogged.
  split.
  - match goal with
    | |- _ ∈ log (exec ?m ?c1) =>
        assert (Hrest : preserves
                  (fun c => UserError "The tooltip url is invalid" ∈ log c) m)
    end.
    { preserves_tac logged_side; exact Hlogged. }
    apply Hrest. simpl. set_solver.
  - match goal with
    | |- tooltipAttributes (exec ?m ?c1) = _ =>
        assert (Hrest : keeps tooltipAttributes m) by keeps_tac
    end.
    rewrite Hrest. reflexivity.
Qed.

(** ** Deliveries of the same target *)

Lemma keeps_view_updateTooltipBehavior_ t :
  keeps tooltipView (updateTooltipBehavior_ t).
Proof. unfold updateTooltipBehavior_, getElementHref_. keeps_tac. Qed.

Lemma keeps_previousTarget_updateTooltipBehavior_ t :
  keeps previousTarget_ (updateTooltipBehavior_ t).
Proof. unfold updateTooltipBehavior_, getElementHref_. keeps_tac. Qed.

Lemma update_focused c t :
  state_ c = ComponentState.HIDDEN \/ state_ c = ComponentState.FOCUSED ->
  onEmbeddedComponentUpdate_ (Some t) c
  = onFocusedStateUpdate_ (Some t) (set_state_ ComponentState.FOCUSED c).
Proof.
  intros Hs. apply state_dispatch in Hs.
  unfold onEmbeddedComponentUpdate_, mbind, M_bind, get. by rewrite Hs.
Qed.

(** A delivery of the target the component is focused on writes neither
    text, icon nor position, and asks for no placement. *)
Lemma same_target_delivery_view c t :
  focusedOn t c ->
  tooltipView (exec (onEmbeddedComponentUpdate_ (Some t)) c) = tooltipView c.
Proof.
  intros (Hs & [ov Hov] & Hsame). unfold exec.
  rewrite update_focused by (by right).
  change (tooltipView
            (exec (onFocusedStateUpdate_ (Some t))
               (set_state_ ComponentState.FOCUSED c))
          = tooltipView (set_state_ ComponentState.FOCUSED c)).
  set (c0 := set_state_ ComponentState.FOCUSED c).
  assert (Hov0 : focusedStateOverlay_ c0 = Some ov) by exact Hov.
  assert (Hsame0 : same_element t (previousTarget_ c0) = true) by exact Hsame.
  clearbody c0. clear Hs Hov Hsame c.
  unfold onFocusedStateUpdate_.
  rewrite exec_get_bind, Hov0, exec_bind. simpl. rewrite exec_bind.
  pose proof (keeps_view_updateTooltipBehavior_ t c0) as Hview.
  pose proof (keeps_previousTarget_updateTooltipBehavior_ t c0) as Hprev.
  unfold exec in Hview, Hprev.
  destruct (updateTooltipBehavior_ t c0) as [[[] | e] c1]; simpl in *; [| done].
  rewrite exec_get_bind, Hprev, Hsame0. simpl.
  rewrite <- Hview.
  match goal with
  | |- tooltipView (exec ?m c1) = _ =>
      assert (Hrest : keeps tooltipView m) by keeps_tac
  end.
  apply Hrest.
Qed.

Ltac focused_side :=
  let H := fresh "H" in
  let H1 := fresh "H" in
  let H2 := fresh "H" in
  intros H; cbv beta in *;
  first [ exact H
        | destruct H as [H1 H2];
          split;
          [ first [ exact H1 | by eexists ]
          | first [ exact H2 | apply Nat.eqb_refl ] ] ].

Lemma preserves_focusedOn_delivery t :
  preserves (fun c => is_Some (focusedStateOverlay_ c) /\
                      same_element t (previousTarget_ c) = true)
    (onFocusedStateUpdate_ (Some t)).
Proof.
  unfold onFocusedStateUpdate_, buildFocusedState_, buildFocusedStateTemplate_,
    onUIStateUpdate_, updateTooltipBehavior_, updateTooltipEl_,
    updateTooltipText_, updateTooltipIcon_, positionTooltip_, getElementHref_.
  preserves_tac focused_side.
Qed.

Lemma same_target_delivery_focusedOn c t :
  focusedOn t c -> focusedOn t (exec (onEmbeddedComponentUpdate_ (Some t)) c).
Proof.
  intros (Hs & Hrest).
  split;
    [ unfold onEmbeddedComponentUpdate_;
      rewrite exec_get_bind, Hs; apply setState_sets_state; by right |].
  unfold exec. rewrite update_focused by (by right).
  by apply (preserves_focusedOn_delivery t).
Qed.

Lemma first_delivery_focusedOn c t c' :
  state_ c = ComponentState.HIDDEN \/ state_ c = ComponentState.FOCUSED ->
  onEmbeddedComponentUpdate_ (Some t) c = (Normal tt, c') ->
  focusedOn t c'.
Proof.
  intros Hs Hrun.
  split.
  { replace c' with (exec (onEmbeddedComponentUpdate_ (Some t)) c)
      by (unfold exec; by rewrite Hrun).
    unfold onEmbeddedComponentUpdate_. rewrite exec_get_bind.
    apply state_dispatch in Hs. rewrite Hs.
    apply setState_sets_state. by right. }
  rewrite update_focused in Hrun by done.
  revert Hrun. generalize (set_state_ ComponentState.FOCUSED c) as c0.
  intros c0.
  assert (Hens : ensures (onFocusedStateUpdate_ (Some t))
            (fun c' => is_Some (focusedStateOverlay_ c') /\
                       same_element t (previousTarget_ c') = true)).
  { unfold onFocusedStateUpdate_.
    do 5 (apply ensures_bind; intros ?).
    intros c1 [] c2. unfold mbind, M_bind, modify, emit, get, devAssert.
    simpl. destruct (focusedStateOverlay_ c1); simpl; [| discriminate].
    intros [= <-]. simpl. split; [by eexists | apply Nat.eqb_refl]. }
  apply Hens.
Qed.

Lemma deliveries_same_target c t n :
  focusedOn t c ->
  tooltipView (deliveries n (onEmbeddedComponentUpdate_ (Some t)) c)
  = tooltipView c /\
  focusedOn t (deliveries n (onEmbeddedComponentUpdate_ (Some t)) c).
Proof.
  revert c. induction n as [| n IH]; intros c Hfocused; [done |].
  simpl.
  destruct (IH _ (same_target_delivery_focusedOn c t Hfocused)) as [Hview Hf].
  split; [| done].
  by rewrite Hview, same_target_delivery_view.
Qed.

Lemma bumps_updateTooltipEl_ t : bumps 1 (updateTooltipEl_ t).
Proof.
  unfold updateTooltipEl_.
  apply bumps_bind_l;
    [unfold updateTooltipText_, getElementHref_; keeps_tac | intros _].
  apply bumps_bind_l; [unfold updateTooltipIcon_; keeps_tac | intros _].
  unfold positionTooltip_.
  apply bumps_bind_r; [| intros _; keeps_tac].
  intros c. unfold placements, exec, emit, modify. simpl. lia.
Qed.

(** One delivery asks for at most one placement. *)
Lemma bumps_delivery c t :
  state_ c = ComponentState.HIDDEN \/ state_ c = ComponentState.FOCUSED ->
  (placements (exec (onEmbeddedComponentUpdate_ (Some t)) c)
   <= placements c + 1)%nat.
Proof.
  intros Hs. unfold exec. rewrite update_focused by done.
  change (placements c)
    with (placements (set_state_ ComponentState.FOCUSED c)).
  generalize (set_state_ ComponentState.FOCUSED c). clear c Hs.
  change (bumps 1 (onFocusedStateUpdate_ (Some t))).
  unfold onFocusedStateUpdate_.
  apply bumps_bind_l; [keeps_tac | intros c].
  apply bumps_bind_l;
    [unfold buildFocusedState_, buildFocusedStateTemplate_, onUIStateUpdate_;
     keeps_tac | intros _].
  apply bumps_bind_l;
    [unfold updateTooltipBehavior_, getElementHref_; keeps_tac | intros _].
  apply bumps_bind_l; [keeps_tac | intros c'].
  apply bumps_bind_r; [| intros _; keeps_tac].
  destruct (negb _); [apply bumps_updateTooltipEl_ |].
  apply bumps_of_keeps. keeps_tac.
Qed.

(** C9: while the component is focused on [t], any number of further
    deliveries of [t] leaves the tooltip's text, icon and position as they
    are and asks the scheduler for no placement: the content update is
    skipped because [t] is the previous target.  So in a run of deliveries
    of one target, only the first, when it completes, updates the content:
    what the tooltip shows after it is what it shows after all of them,
    and the whole run asks for at most one placement. *)
Theorem C9_same_target_not_rebound :
  (forall c t n,
     focusedOn t c ->
     tooltipView (deliveries n (onEmbeddedComponentUpdate_ (Some t)) c)
     = tooltipView c) /\
  (forall c t n,
     state_ c = ComponentState.HIDDEN \/ state_ c = ComponentState.FOCUSED ->
     completion (onEmbeddedComponentUpdate_ (Some t)) c = Normal tt ->
     let c' := deliveries (S n) (onEmbeddedComponentUpdate_ (Some t)) c in
     tooltipView c'
     = tooltipView (exec (onEmbeddedComponentUpdate_ (Some t)) c) /\
     (placements c' <= placements c + 1)%nat).
Proof.
  split.
  - intros c t n Hfocused. by apply deliveries_same_target.
  - intros c t n Hs Hdone c'. subst c'. simpl.
    assert (Hview :
      tooltipView
        (deliveries n (onEmbeddedComponentUpdate_ (Some t))
           (exec (onEmbeddedComponentUpdate_ (Some t)) c))
      = tooltipView (exec (onEmbeddedComponentUpdate_ (Some t)) c)).
    { apply deliveries_same_target.
      apply (first_delivery_focusedOn c t); [done |].
      unfold completion, exec in *.
      destruct (onEmbeddedComponentUpdate_ (Some t) c) as [r c'].
      simpl in *. by subst r. }
    split; [exact Hview |].
    apply (f_equal snd) in Hview. simpl in Hview. rewrite Hview.
    by apply bumps_delivery.
Qed.

End StateMachine.

Lemma C1_target_updates_witness :
  state_ (exec (onEmbeddedComponentUpdate_ None) focusedComponent)
  = ComponentState.HIDDEN /\
  onEmbeddedComponentUpdate_ (Some (tweet 2)) expandedComponent
  = (Normal tt, expandedComponent) /\
  state_ (exec (onEmbeddedComponentUpdate_ (Some (closeButton 3)))
            expandedComponent)
  = ComponentState.HIDDEN.
Proof.
  destruct (C1_target_updates (H := domHelpers)) as (Hnull & Hstray & Hclose).
  split; [| split].
  - apply Hnull. right. reflexivity.
  - apply Hstray; [reflexivity |]. intros t Ht. injection Ht as <-.
    reflexivity.
  - apply Hclose; reflexivity.
Defined.

Lemma domHelpers_hrefKept : hrefKept (H := domHelpers).
Proof.
  intros attrs v _. simpl. rewrite lookup_insert_eq. by eexists.
Qed.

Lemma C10_what_hiding_clears_witness :
  (let c' := exec (onEmbeddedComponentUpdate_ None) focusedComponent in
   tooltip_ c' = tooltip_ focusedComponent /\
   tooltipHref c' = Some "https://example.com/"%string) /\
  (let c' := exec (handle (OverlayClick false)) focusedComponent in
   tooltipHref c' = None /\ tooltipExpandListener c' = Some false) /\
  (let c' := exec (handle (EmbeddedComponentUpdate (Some (closeButton 3))))
               expandedComponent in
   tooltipExpandListener expandedComponent = Some true /\
   tooltipExpandListener c' = Some false) /\
  linkKept expandedComponent (exec (handle ExpandClick) expandedComponent).
Proof.
  destruct (C10_what_hiding_clears (H := domHelpers))
    as (Hnull & _ & Hclose & Hexpanded & Honly).
  split; [| split; [| split]].
  - destruct (Hnull focusedComponent) as (Htip & _ & _);
      [right; reflexivity |].
    split; [exact Htip |].
    unfold tooltipHref. cbv zeta in Htip. rewrite Htip. reflexivity.
  - destruct (tooltip_ focusedComponent) as [tip |] eqn:Htip;
      [| discriminate].
    destruct (Hclose focusedComponent tip (OverlayClick false) Htip)
      as (Hhref & Hlistener & _); [by left |].
    split; [exact Hhref | exact Hlistener].
  - split; [by vm_compute |].
    destruct (tooltip_ expandedComponent) as [tip |] eqn:Htip;
      [| by vm_compute in Htip].
    destruct (focusedStateOverlay_ expandedComponent) as [ov |] eqn:Hov;
      [| by vm_compute in Hov].
    destruct (activePage expandedComponent) as [page |] eqn:Hpage;
      [| by vm_compute in Hpage].
    assert (Hs : state_ expandedComponent = ComponentState.EXPANDED)
      by (by vm_compute).
    assert (Hm : matches (closeButton 3) sel_CLOSE_BUTTON = true)
      by (by vm_compute).
    assert (Hprev : is_Some (expandedViewOverlay_ expandedComponent) ->
                    is_Some (previousTarget_ expandedComponent))
      by (intros _; vm_compute; by eexists).
    exact (proj1 (proj2 (Hexpanded expandedComponent (closeButton 3) tip ov
                           page Hs Hm Htip Hov Hpage Hprev))).
  - apply Honly.
    + exact domHelpers_hrefKept.
    + intros _. by eexists.
    + intros [Hi | [[t Hi] | [t [Hi _]]]]; discriminate.
Defined.

(** C7 at a link to [javascript:alert(1)], with the helpers of the document
    object model: the url is refused and the error is logged for the user
    (once by [updateTooltipBehavior_], once more by [updateTooltipText_]),
    the layer is shown and the component is [FOCUSED]; but the tooltip
    does get an [href] attribute, the string "undefined", because
    [updateTooltipBehavior_] hands [{href: undefined}] to
    [addAttributesToElement] instead of returning as [updateTooltipIcon_]
    does for a refused icon url. *)
Theorem C7_refused_url_still_sets_href :
  let t := linkTo 1 "javascript:alert(1)" in
  let c' := exec (onEmbeddedComponentUpdate_ (Some t)) component0 in
  matches t sel_LINK = true /\
  isProtocolValid (getAttribute t "href") = false /\
  completion (onEmbeddedComponentUpdate_ (Some t)) component0 = Normal tt /\
  state_ c' = ComponentState.FOCUSED /\
  ov_hidden <$> focusedStateOverlay_ c' = Some false /\
  log c' = [MutateElement RefFocusedOverlay; MeasureMutateElement RefStory;
            UserError "The tooltip url is invalid";
            UserError "The tooltip url is invalid";
            Subscribe CURRENT_PAGE_ID; MutateElement RefFocusedOverlay;
            Subscribe UI_STATE] /\
  tooltipHref c' = Some "undefined"%string.
Proof.
  cbv zeta. repeat split; by vm_compute.
Qed.

(** C8, as the spec states it, fails: with the state value 7, neither
    [onEmbeddedComponentUpdate_] nor [setState_] throws; both return
    normally. *)
Lemma C8_counterexample :
  let c := set_state_ 7 component0 in
  unknownState (state_ c) /\
  completion (onEmbeddedComponentUpdate_ None) c = Normal tt /\
  ~ failsLoudly (onEmbeddedComponentUpdate_ None) c /\
  completion (setState_ 7 None) component0 = Normal tt /\
  ~ failsLoudly (setState_ 7 None) component0.
Proof.
  cbv zeta. split; [by repeat split |].
  split; [by vm_compute |]. split; [| split; [by vm_compute |]].
  - intros [e He]. vm_compute in He. discriminate.
  - intros [e He]. vm_compute in He. discriminate.
Qed.

Lemma C8_unknown_state_warns_witness :
  let c := set_state_ 7 component0 in
  unknownState 7 /\
  onEmbeddedComponentUpdate_ (Some (tweet 2)) c
  = (Normal tt, set_log (DevWarnStateDoesNotExist 7 :: log c) c) /\
  setState_ 7 (Some (tweet 2)) component0
  = (Normal tt,
     set_log (DevWarnStateDoesNotExist ComponentState.HIDDEN
              :: log component0) component0).
Proof.
  cbv zeta.
  assert (Hunknown : unknownState 7) by (by repeat split).
  destruct (C8_unknown_state_warns (H := domHelpers)) as [Hupdate Hset].
  split; [exact Hunknown |]. split.
  - exact (Hupdate (set_state_ 7 component0) (Some (tweet 2)) Hunknown).
  - exact (Hset component0 7%Z (Some (tweet 2)) Hunknown).
Defined.

Lemma C9_same_target_not_rebound_witness :
  let t := linkTo 1 "https://example.com/" in
  focusedOn t focusedComponent /\
  tooltipView (deliveries 3 (onEmbeddedComponentUpdate_ (Some t))
                 focusedComponent)
  = tooltipView focusedComponent /\
  completion (onEmbeddedComponentUpdate_ (Some t)) component0 = Normal tt /\
  tooltipView (deliveries 3 (onEmbeddedComponentUpdate_ (Some t)) component0)
  = tooltipView (exec (onEmbeddedComponentUpdate_ (Some t)) component0) /\
  (placements
     (deliveries 3 (onEmbeddedComponentUpdate_ (Some t)) component0)
   <= placements component0 + 1)%nat.
Proof.
  cbv zeta.
  assert (Hfocused : focusedOn (linkTo 1 "https://example.com/")
                       focusedComponent).
  { split; [by vm_compute |]. split; [vm_compute; by eexists | by vm_compute]. }
  assert (Hdone : completion
            (onEmbeddedComponentUpdate_
               (Some (linkTo 1 "https://example.com/"))) component0
            = Normal tt) by (by vm_compute).
  destruct (C9_same_target_not_rebound (H := domHelpers)) as [Hsame Hfirst].
  split; [exact Hfocused |].
  split; [exact (Hsame _ _ 3%nat Hfocused) |].
  split; [exact Hdone |].
  apply (Hfirst component0 _ 2%nat); [by left | exact Hdone].
Defined.

(** * Further properties of the placement arithmetic *)

(** X1: the left edge of the placed tooltip is never closer than
    [EDGE_PADDING] to the left edge of the page; when the page is wide
    enough for the tooltip and both paddings, its right edge is not closer
    than [EDGE_PADDING] to the right edge of the page either. *)
Theorem placement_stays_in_page (tw aw : Q) (t p : ClientRect) :
  let r := measurePlacement tw aw t p in
  exists l,
    tooltipLeft r = Some (l + Rect.left p) /\
    EDGE_PADDING <= l /\
    (EDGE_PADDING <= maxHorizontalLeft tw p ->
       l + tw + EDGE_PADDING <= Rect.width p).
Proof.
  intros r. subst r. unfold measurePlacement.
  rewrite horizontal_tooltipLeft.
  set (c := centeredLeft tw t p). set (m := maxHorizontalLeft tw p).
  exists (Qmax EDGE_PADDING (Qmin c m)).
  split; [reflexivity |].
  pose proof (Q.min_spec c m) as Hmin.
  pose proof (Q.max_spec EDGE_PADDING (Qmin c m)) as Hmax.
  split.
  - apply Q.le_max_l.
  - intros Hwide. unfold m, maxHorizontalLeft in *.
    destruct Hmin as [[? Hmin] | [? Hmin]], Hmax as [[? Hmax] | [? Hmax]];
      rewrite Hmax; lra.
Qed.

Lemma placement_stays_in_page_witness :
  let t := Rect.mk 300 350 40 40 in
  let p := Rect.mk 0 20 400 600 in
  EDGE_PADDING <= maxHorizontalLeft 200 p /\
  exists l, tooltipLeft (measurePlacement 200 10 t p) = Some (l + Rect.left p) /\
            l + 200 + EDGE_PADDING <= Rect.width p.
Proof.
  cbv zeta.
  assert (Hwide : EDGE_PADDING <= maxHorizontalLeft 200 (Rect.mk 0 20 400 600))
    by discriminate.
  split; [exact Hwide |].
  destruct (placement_stays_in_page 200 10 (Rect.mk 300 350 40 40)
              (Rect.mk 0 20 400 600)) as (l & Hl & _ & Hright).
  exists l. split; [exact Hl | exact (Hright Hwide)].
Defined.

(** X2: on rectangles whose vertical coordinates are whole numbers of
    pixels, where nothing is rounded: the arrow is on top exactly when the
    tooltip is placed below the target, that is when there is at most
    [MIN_VERTICAL_SPACE] above the target and more than that below it.  A
    tooltip placed above the target starts inside the page,
    [MIN_VERTICAL_SPACE] above the target; a tooltip placed below it starts
    [2 * EDGE_PADDING] under the target and more than 40 above the bottom
    of the page. *)
Theorem placement_vertical_in_page (tw aw : Q) (t p : ClientRect) :
  wholePixels t -> wholePixels p ->
  let r := measurePlacement tw aw t p in
  exists y,
    tooltipTop r = Some y /\
    (arrowOnTop r = true <->
       Rect.top t - Rect.top p <= MIN_VERTICAL_SPACE /\
       MIN_VERTICAL_SPACE
       < Rect.height p - (Rect.top t + Rect.height t - Rect.top p)) /\
    (MIN_VERTICAL_SPACE < Rect.top t - Rect.top p ->
       Rect.top p < y /\ y + MIN_VERTICAL_SPACE == Rect.top t) /\
    (arrowOnTop r = true ->
       y == Rect.top t + Rect.height t + 16 /\
       y + 40 < Rect.top p + Rect.height p).
Proof.
  intros (a & h & Ha & Hh & Ba & Bh) (b & g & Hb & Hg & Bb & Bg) r. subst r.
  destruct (vertical_on_integers t p a h b g Ha Hh Hb Hg Ba Bh Bb Bg)
    as (Habove & Hbelow & Htop1 & Htop2).
  unfold measurePlacement.
  destruct (Qlt_le_dec MIN_VERTICAL_SPACE (spaceAbove t p)) as [H1 | H1].
  - rewrite vertical_above by done. simpl.
    eexists. split; [reflexivity |].
    rewrite Htop1. rewrite Habove in H1. unfold MIN_VERTICAL_SPACE in *.
    split; [split; [discriminate | intros [? _]; lra] |].
    split; [intros _; split; lra | discriminate].
  - destruct (Qlt_le_dec MIN_VERTICAL_SPACE (spaceBelow t p)) as [H2 | H2].
    + rewrite vertical_below by done. simpl.
      eexists. split; [reflexivity |].
      rewrite Htop2. rewrite Habove in H1. rewrite Hbelow in H2.
      unfold MIN_VERTICAL_SPACE in *.
      split; [split; [by intros _ | by intros _] |].
      split; [intros ?; lra | intros _; split; lra].
    + rewrite vertical_middle by done. simpl.
      eexists. split; [reflexivity |].
      rewrite Habove in H1. rewrite Hbelow in H2.
      unfold MIN_VERTICAL_SPACE in *.
      split; [split; [discriminate | intros [_ ?]; lra] |].
      split; [intros ?; lra | discriminate].
Qed.

Lemma placement_vertical_in_page_witness :
  let t := Rect.mk 300 180 40 40 in
  let p := Rect.mk 0 0 400 600 in
  wholePixels t /\ wholePixels p /\
  MIN_VERTICAL_SPACE < Rect.top t - Rect.top p /\
  exists y, tooltipTop (measurePlacement 200 10 t p) = Some y /\
            Rect.top p < y /\ y + MIN_VERTICAL_SPACE == Rect.top t.
Proof.
  cbv zeta.
  assert (Ht : wholePixels (Rect.mk 300 180 40 40))
    by (exists 300%Z, 40%Z; repeat split; by vm_compute).
  assert (Hp : wholePixels (Rect.mk 0 0 400 600))
    by (exists 0%Z, 600%Z; repeat split; by vm_compute).
  assert (Habove : MIN_VERTICAL_SPACE
                   < Rect.top (Rect.mk 300 180 40 40)
                     - Rect.top (Rect.mk 0 0 400 600))
    by (by vm_compute).
  split; [exact Ht |]. split; [exact Hp |]. split; [exact Habove |].
  destruct (placement_vertical_in_page 200 10 (Rect.mk 300 180 40 40)
              (Rect.mk 0 0 400 600) Ht Hp) as (y & Hy & _ & Hrule1 & _).
  exists y. split; [exact Hy | exact (Hrule1 Habove)].
Defined.

(** X3: when the arrow offset is not cut by its upper bound and the target's
    midpoint lies at least half an arrow right of the tooltip's left edge,
    the middle of the arrow is exactly at the target's midpoint. *)
Theorem arrow_points_at_target (tw aw : Q) (t p : ClientRect) (l a : Q) :
  let r := measurePlacement tw aw t p in
  tooltipLeft r = Some l ->
  arrowLeftOffset r = Some a ->
  a < tw - 3 * EDGE_PADDING ->
  (l - Rect.left p) + aw / 2 <= targetMidpoint t p ->
  (l - Rect.left p) + a + aw / 2 == targetMidpoint t p.
Proof.
  intros r. subst r. unfold measurePlacement.
  rewrite horizontal_tooltipLeft, horizontal_arrowLeftOffset.
  set (l0 := Qmax EDGE_PADDING
               (Qmin (centeredLeft tw t p) (maxHorizontalLeft tw p))).
  set (z := targetMidpoint t p - l0 - aw / 2).
  set (a0 := Qmin (Qabs z) (tw - EDGE_PADDING * 3)).
  intros Hl Ha Hfree Hright.
  assert (Hl' : l = l0 + Rect.left p) by congruence.
  assert (Ha' : a = a0) by congruence.
  subst l a. clear Hl Ha.
  pose proof (Q.min_spec (Qabs z) (tw - EDGE_PADDING * 3)) as Hmin.
  fold a0 in Hmin.
  assert (Hz : 0 <= z) by (unfold z; lra).
  pose proof (Qabs_pos z Hz) as Habs.
  assert (Hzdef : z == targetMidpoint t p - l0 - aw / 2) by reflexivity.
  clearbody z.
  clearbody a0. set (az := Qabs z) in *. clearbody az.
  unfold EDGE_PADDING in *.
  destruct Hmin as [[? Hmin] | [? Hmin]]; lra.
Qed.

Lemma arrow_points_at_target_witness :
  let t := Rect.mk 300 180 40 40 in
  let p := Rect.mk 0 0 400 600 in
  exists l a,
    tooltipLeft (measurePlacement 200 10 t p) = Some l /\
    arrowLeftOffset (measurePlacement 200 10 t p) = Some a /\
    a < 200 - 3 * EDGE_PADDING /\
    (l - Rect.left p) + 10 / 2 <= targetMidpoint t p /\
    (l - Rect.left p) + a + 10 / 2 == targetMidpoint t p.
Proof.
  cbv zeta. eexists; eexists.
  split; [reflexivity |]. split; [reflexivity |].
  match goal with
  | |- ?A /\ ?B /\ _ =>
      assert (Hfree : A) by reflexivity;
      assert (Hright : B) by discriminate
  end.
  split; [exact Hfree |]. split; [exact Hright |].
  exact (arrow_points_at_target 200 10 (Rect.mk 300 180 40 40)
           (Rect.mk 0 0 400 600) _ _ eq_refl eq_refl Hfree Hright).
Defined.


(** * Runs of inputs *)

Section Traces.
Context `{Helpers}.

(** The layer is built by the first focus, and the focus then goes on as
    on a component whose layer exists. *)
Lemma focus_builds_first c t :
  focusedStateOverlay_ c = None ->
  buildAndAppendFocusedState c
  = (Normal tt, exec buildAndAppendFocusedState c) /\
  onFocusedStateUpdate_ (Some t) c
  = onFocusedStateUpdate_ (Some t) (exec buildAndAppendFocusedState c).
Proof.
  intros Hov. destruct c as [s prev sr ov tip ar evo pg tw aw ui lg].
  simpl in Hov. subst ov. split; reflexivity.
Qed.

Lemma built_after_build c :
  validState (state_ c) -> stateWarnings c = 0%nat -> layerNotBuilt c ->
  consistentBuilt (exec buildAndAppendFocusedState c).
Proof.
  intros Hv Hw (Hov & Htip & Har & Hsr & Hsub).
  destruct c as [s prev sr ov tip ar evo pg tw aw ui lg].
  unfold subscriptions, stateWarnings in *. simpl in *. subst.
  split; [exact Hv |]. split; [exact Hw |].
  unfold layerBuilt, subscriptions. simpl. rewrite Hsub.
  repeat split; by eexists.
Qed.

Ltac built_side :=
  let H := fresh "H" in
  intros H; cbv beta in *;
  first
    [ exact H
    | let Hv := fresh "Hv" in
      let Hw := fresh "Hw" in
      let Ho := fresh "Ho" in
      let Ht := fresh "Ht" in
      let Ha := fresh "Ha" in
      let Hs := fresh "Hs" in
      let Hn := fresh "Hn" in
      destruct H as (Hv & Hw & Ho & Ht & Ha & Hs & Hn);
      split;
      [ first [ exact Hv | by left | by right; left | by right; right ] |];
      split; [exact Hw |];
      split; [first [ exact Ho | by eexists ] |];
      split; [first [ exact Ht | by eexists ] |];
      split; [first [ exact Ha | by eexists ] |];
      split; [exact Hs | exact Hn] ].

Lemma focus_preserves_built t :
  preserves consistentBuilt (onFocusedStateUpdate_ (Some t)).
Proof.
  intros c Hb.
  assert (Hov : is_Some (focusedStateOverlay_ c)) by apply Hb.
  destruct Hov as [ov Hov].
  unfold onFocusedStateUpdate_. rewrite exec_get_bind, Hov, exec_bind.
  simpl. revert c Hb Hov.
  match goal with
  | |- forall c, _ -> _ -> consistentBuilt (exec ?m c) =>
      assert (Hrest : preserves consistentBuilt m)
  end.
  { unfold updateTooltipBehavior_, updateTooltipEl_, updateTooltipText_,
      updateTooltipIcon_, positionTooltip_, getElementHref_.
    preserves_tac built_side. }
  intros c Hb _. by apply Hrest.
Qed.

Lemma hide_preserves_built :
  preserves consistentBuilt (setState_ ComponentState.HIDDEN None).
Proof.
  unfold setState_, onFocusedStateUpdate_. simpl. preserves_tac built_side.
Qed.

Lemma handle_preserves_built i : preserves consistentBuilt (handle i).
Proof.
  pose proof hide_preserves_built as Hhide.
  intros c Hb. destruct i as [target | ui | e | inside |]; simpl.
  - unfold onEmbeddedComponentUpdate_. rewrite exec_get_bind.
    destruct Hb as (Hv & Hrest).
    assert (Hb : consistentBuilt c) by (split; [exact Hv | exact Hrest]).
    destruct Hv as [Hs | [Hs | Hs]]; rewrite Hs; simpl.
    + destruct target as [t |]; [| by apply Hhide].
      unfold setState_. simpl. rewrite exec_bind. simpl.
      apply focus_preserves_built. revert Hb. built_side.
    + destruct target as [t |]; [| by apply Hhide].
      unfold setState_. simpl. rewrite exec_bind. simpl.
      apply focus_preserves_built. revert Hb. built_side.
    + clear Hrest. revert c Hb Hs.
      match goal with
      | |- forall c, _ -> _ -> consistentBuilt (exec ?m c) =>
          assert (Hclose : preserves consistentBuilt m)
      end.
      { unfold maybeCloseExpandedView_, toggleExpandedView_.
        preserves_tac built_side; try exact Hhide. }
      intros c Hb _. by apply Hclose.
  - revert c Hb. change (preserves consistentBuilt (onUIStateUpdate_ ui)).
    unfold onUIStateUpdate_. preserves_tac built_side.
  - revert c Hb. change (preserves consistentBuilt (onCurrentPageIdUpdate e)).
    unfold onCurrentPageIdUpdate, closeFocusedState_, clearTooltip_.
    preserves_tac built_side; try exact Hhide.
  - revert c Hb.
    change (preserves consistentBuilt (onOutsideTooltipClick_ inside)).
    unfold onOutsideTooltipClick_, closeFocusedState_, clearTooltip_.
    preserves_tac built_side; try exact Hhide.
  - revert c Hb. change (preserves consistentBuilt onExpandComponent_).
    unfold onExpandComponent_, setState_, onFocusedStateUpdate_,
      toggleExpandedView_, animateExpanded_,
      buildAndAppendExpandedViewOverlay_.
    simpl. preserves_tac built_side.
Qed.

Lemma run_preserves_built inputs c :
  consistentBuilt c -> consistentBuilt (run inputs c).
Proof.
  revert c. induction inputs as [| i inputs IH]; intros c Hc; [done |].
  simpl. by apply IH, handle_preserves_built.
Qed.

Lemma built_consistent c : consistentBuilt c -> consistent c.
Proof. intros (Hv & Hw & Hb). split; [done |]. split; [done | by right]. Qed.

Ltac unbuilt_done :=
  unfold consistent, layerNotBuilt, validState, subscriptions, stateWarnings,
    exec in *;
  simpl in *;
  split; [ first [ by left | by right; left | by right; right ] |];
  split; [assumption |];
  left; repeat split; assumption.

Lemma handle_from_unbuilt i c :
  validState (state_ c) -> stateWarnings c = 0%nat -> layerNotBuilt c ->
  consistent (exec (handle i) c).
Proof.
  intros Hv Hw Hnb.
  destruct i as [[t |] | ui | e | inside |].
  - (* a target: the layer is built, unless the view is expanded *)
    simpl. unfold onEmbeddedComponentUpdate_. rewrite exec_get_bind.
    assert (Hfocus : consistent
              (exec (setState_ ComponentState.FOCUSED (Some t)) c)).
    { change (consistent
                (exec (onFocusedStateUpdate_ (Some t))
                   (set_state_ ComponentState.FOCUSED c))).
      unfold exec at 1.
      rewrite (proj2 (focus_builds_first
                        (set_state_ ComponentState.FOCUSED c) t
                        (proj1 Hnb))).
      apply built_consistent, focus_preserves_built.
      apply built_after_build; [by right; left | exact Hw | exact Hnb]. }
    destruct Hv as [Hs | [Hs | Hs]]; rewrite Hs;
      [exact Hfocus | exact Hfocus |].
    clear Hfocus.
    change (consistent (exec (maybeCloseExpandedView_ (Some t)) c)).
    unfold maybeCloseExpandedView_. destruct (matches t sel_CLOSE_BUTTON).
    + destruct Hnb as (Hov & Htip & Har & Hsr & Hsub).
      destruct c as [s prev sr ov tip ar evo pg tw aw ui lg].
      simpl in Hs, Hov, Htip, Har, Hsr. subst. unbuilt_done.
    + split; [by right; right |]. split; [exact Hw | by left].
  - destruct Hnb as (Hov & Htip & Har & Hsr & Hsub).
    destruct c as [s prev sr ov tip ar evo pg tw aw ui lg].
    simpl in Hov, Htip, Har, Hsr. subst.
    destruct Hv as [Hs | [Hs | Hs]]; simpl in Hs; subst; unbuilt_done.
  - destruct Hnb as (Hov & Htip & Har & Hsr & Hsub).
    destruct c as [s prev sr ov tip ar evo pg tw aw ui0 lg].
    simpl in Hov, Htip, Har, Hsr. subst.
    destruct Hv as [Hs | [Hs | Hs]]; simpl in Hs; subst; unbuilt_done.
  - destruct Hnb as (Hov & Htip & Har & Hsr & Hsub).
    destruct c as [s prev sr ov tip ar evo pg tw aw ui lg].
    simpl in Hov, Htip, Har, Hsr. subst.
    destruct e; destruct Hv as [Hs | [Hs | Hs]]; simpl in Hs; subst;
      unbuilt_done.
  - destruct Hnb as (Hov & Htip & Har & Hsr & Hsub).
    destruct c as [s prev sr ov tip ar evo pg tw aw ui lg].
    simpl in Hov, Htip, Har, Hsr. subst.
    destruct inside; destruct Hv as [Hs | [Hs | Hs]]; simpl in Hs; subst;
      unbuilt_done.
  - destruct Hnb as (Hov & Htip & Har & Hsr & Hsub).
    destruct c as [s prev sr ov tip ar evo pg tw aw ui lg].
    simpl in Hov, Htip, Har, Hsr. subst.
    destruct Hv as [Hs | [Hs | Hs]]; simpl in Hs; subst; unbuilt_done.
Qed.

Lemma handle_preserves_consistent i : preserves consistent (handle i).
Proof.
  intros c (Hv & Hw & [Hnb | Hb]).
  - by apply handle_from_unbuilt.
  - by apply built_consistent, handle_preserves_built.
Qed.

Lemma newComponent_consistent page tw aw ui :
  consistent (newComponent page tw aw ui).
Proof.
  split; [by left |]. split; [done |]. left. by repeat split.
Qed.

Lemma run_consistent inputs c : consistent c -> consistent (run inputs c).
Proof.
  revert c. induction inputs as [| i inputs IH]; intros c Hc; [done |].
  simpl. by apply IH, handle_preserves_consistent.
Qed.

(** X5: whatever inputs the component receives after its constructor, and
    however their handlers complete: its state is one of [HIDDEN],
    [FOCUSED] and [EXPANDED], so the "does not exist" warning is never
    logged; and the focused-state layer is either not built at all, or
    built whole: layer, tooltip and arrow exist, the shadow root is in the
    story, and the store has been subscribed to exactly twice. *)
Theorem component_stays_consistent
    (page : option StoryPage) (tw aw : Q) (ui : UIType)
    (inputs : list Input) :
  let c := run inputs (newComponent page tw aw ui) in
  validState (state_ c) /\
  stateWarnings c = 0%nat /\
  (layerNotBuilt c \/ layerBuilt c) /\
  (subscriptions c <= 2)%nat.
Proof.
  intros c.
  destruct (run_consistent inputs _ (newComponent_consistent page tw aw ui))
    as (Hv & Hw & Hlayer).
  fold c in Hv, Hw, Hlayer.
  split; [exact Hv |]. split; [exact Hw |]. split; [exact Hlayer |].
  destruct Hlayer as [(_ & _ & _ & _ & Hsub) | (_ & _ & _ & _ & Hsub)];
    rewrite Hsub; lia.
Qed.

End Traces.

(** * Updating and showing the tooltip *)

Section Focus.
Context `{Helpers}.

Lemma keeps_around_updateTooltipBehavior_ t :
  keeps aroundTooltip (updateTooltipBehavior_ t).
Proof. unfold updateTooltipBehavior_, getElementHref_. keeps_tac. Qed.

Lemma keeps_arrow_updateTooltipBehavior_ t :
  keeps tooltipArrow_ (updateTooltipBehavior_ t).
Proof. unfold updateTooltipBehavior_, getElementHref_. keeps_tac. Qed.

Lemma keeps_around_updateTooltipEl_ t :
  keeps aroundTooltip (updateTooltipEl_ t).
Proof.
  unfold updateTooltipEl_, updateTooltipText_, updateTooltipIcon_,
    positionTooltip_, getElementHref_.
  keeps_tac.
Qed.

Lemma updateTooltipBehavior_completes c t tip :
  tooltip_ c = Some tip ->
  completion (updateTooltipBehavior_ t) c = Normal tt /\
  is_Some (tooltip_ (exec (updateTooltipBehavior_ t) c)).
Proof.
  intros Htip. destruct c as [s prev sr ov tp ar evo pg tw aw ui lg].
  simpl in Htip. subst tp.
  unfold updateTooltipBehavior_, getElementHref_, update_tooltip, completion,
    exec, mbind, M_bind, get.
  destruct (matches t sel_LINK).
  - destruct (isProtocolValid (getAttribute t "href")); simpl;
      (split; [reflexivity | by eexists]).
  - destruct (existsb _ _); simpl; (split; [reflexivity | by eexists]).
Qed.

Lemma run_bind {A B} (m : M A) (f : A -> M B) c a c' :
  m c = (Normal a, c') -> (m ≫= f) c = f a c'.
Proof. intros Hm. unfold mbind, M_bind. by rewrite Hm. Qed.

Lemma updateTooltipText_run c t tip :
  tooltip_ c = Some tip ->
  exists l,
    updateTooltipText_ t c
    = (Normal tt,
       set_tooltip_ (Some (tt_set_text (expectedText t) tip)) (set_log l c)) /\
    (l = log c \/ l = UserError "The tooltip url is invalid" :: log c).
Proof.
  intros Htip. destruct c as [s prev sr ov tp a evo p tw aw ui lg].
  simpl in Htip. subst tp.
  unfold updateTooltipText_, getElementHref_, expectedText, update_tooltip,
    mbind, M_bind, get.
  destruct (getAttribute t "data-tooltip-text") as [[| a0 s0] |];
    try destruct (isProtocolValid (getAttribute t "href"));
    eexists; (split; [reflexivity |]); simpl; auto.
Qed.

Lemma updateTooltipIcon_run c t tip :
  tooltip_ c = Some tip ->
  updateTooltipIcon_ t c
  = if isProtocolValid (getAttribute t "data-tooltip-icon") then
      (Normal tt,
       set_tooltip_
         (Some (tt_set_icon
                  (addAttributesToElement (tt_iconAttributes tip)
                     [("src"%string, JString (expectedIconSrc t))])
                  (String.eqb (expectedIconSrc t) DEFAULT_ICON_SRC) tip)) c)
    else
      (Normal tt,
       set_log (UserError "The tooltip icon url is invalid" :: log c) c).
Proof.
  intros Htip. destruct c as [s prev sr ov tp a evo p tw aw ui lg].
  simpl in Htip. subst tp.
  unfold updateTooltipIcon_, expectedIconSrc, update_tooltip, mbind, M_bind,
    get.
  by destruct (isProtocolValid (getAttribute t "data-tooltip-icon")).
Qed.

Lemma positionTooltip_run c t tip ar pg :
  tooltip_ c = Some tip ->
  tooltipArrow_ c = Some ar ->
  activePage c = Some pg ->
  let pl := measurePlacement (tooltipOffsetWidth c) (arrowOffsetWidth c)
              (boundingRect t) (pageRect pg) in
  positionTooltip_ t c
  = (Normal tt,
     set_tooltip_
       (Some (tt_set_position (tooltipTop pl) (tooltipLeft pl)
                (tt_set_arrowOnTop (arrowOnTop pl) tip)))
       (set_tooltipArrow_ (Some (mkArrow (arrowLeftOffset pl)))
          (set_log (MeasureMutateElement RefStory :: log c) c))).
Proof.
  intros Htip Har Hpg pl. subst pl.
  destruct c as [s prev sr ov tp a evo p tw aw ui lg].
  simpl in Htip, Har, Hpg. subst tp a p. reflexivity.
Qed.

Lemma updateTooltipEl_completes c t tip ar pg :
  tooltip_ c = Some tip ->
  tooltipArrow_ c = Some ar ->
  activePage c = Some pg ->
  let c' := exec (updateTooltipEl_ t) c in
  completion (updateTooltipEl_ t) c = Normal tt /\
  tooltipAttributes c' = Some (tt_attributes tip) /\
  tooltipExpandListener c' = Some (tt_expandListener tip) /\
  tooltipText c' = Some (expectedText t) /\
  tooltipPlacement c'
  = Some (measurePlacement (tooltipOffsetWidth c) (arrowOffsetWidth c)
            (boundingRect t) (pageRect pg)) /\
  (if isProtocolValid (getAttribute t "data-tooltip-icon") then
     tooltipIcon c'
     = Some (addAttributesToElement (tt_iconAttributes tip)
               [("src"%string, JString (expectedIconSrc t))],
             String.eqb (expectedIconSrc t) DEFAULT_ICON_SRC)
   else
     tooltipIcon c' = Some (tt_iconAttributes tip, tt_iconHidden tip) /\
     UserError "The tooltip icon url is invalid" ∈ log c').
Proof.
  intros Htip Har Hpg c'. subst c'.
  destruct (updateTooltipText_run c t tip Htip) as (l1 & Htext & _).
  set (c1 := set_tooltip_ (Some (tt_set_text (expectedText t) tip))
               (set_log l1 c)) in *.
  pose proof (updateTooltipIcon_run c1 t _ eq_refl) as Hicon.
  unfold updateTooltipEl_, completion, exec.
  rewrite (run_bind _ _ _ _ _ Htext).
  destruct (isProtocolValid (getAttribute t "data-tooltip-icon")).
  - rewrite (run_bind _ _ _ _ _ Hicon).
    erewrite positionTooltip_run; [| reflexivity | exact Har | exact Hpg].
    simpl. repeat split; reflexivity.
  - rewrite (run_bind _ _ _ _ _ Hicon).
    erewrite positionTooltip_run; [| reflexivity | exact Har | exact Hpg].
    simpl. repeat split; try reflexivity. set_solver.
Qed.







(** [onFocusedStateUpdate_] for a target on a component whose layer
    exists. *)
Lemma focus_built_run c t ov tip ar pg :
  focusedStateOverlay_ c = Some ov ->
  tooltip_ c = Some tip ->
  tooltipArrow_ c = Some ar ->
  activePage c = Some pg ->
  let r := onFocusedStateUpdate_ (Some t) c in
  r.1 = Normal tt /\
  previousTarget_ r.2 = Some t /\
  focusedStateOverlay_ r.2 = Some (mkOverlay false (ov_desktop ov)) /\
  (same_element t (previousTarget_ c) = false ->
     tooltipPlacement r.2
     = Some (measurePlacement (tooltipOffsetWidth c) (arrowOffsetWidth c)
               (boundingRect t) (pageRect pg)) /\
     tooltipText r.2 = Some (expectedText t)).
Proof.
  intros Hov Htip Har Hpg r. subst r.
  destruct (updateTooltipBehavior_completes c t tip Htip) as [Hdone1 [tip1 Htip1]].
  pose proof (keeps_around_updateTooltipBehavior_ t c) as Haround1.
  pose proof (keeps_arrow_updateTooltipBehavior_ t c) as Harrow1.
  unfold completion, exec in *.
  destruct (updateTooltipBehavior_ t c) as [r1 c1] eqn:E1.
  simpl in Hdone1, Htip1, Haround1, Harrow1. subst r1.
  injection Haround1 as Hs1 Hprev1 Hsr1 Hov1 Hevo1 Hpg1 Htw1 Haw1 Hui1.
  rewrite Hov in Hov1. rewrite Hpg in Hpg1. rewrite Har in Harrow1.
  unfold onFocusedStateUpdate_, mbind, M_bind, get.
  rewrite Hov. simpl. rewrite E1, Hprev1.
  destruct (same_element t (previousTarget_ c)) eqn:Hsame; simpl.
  - rewrite Hov1. simpl.
    split; [done |]. split; [done |]. split; [done | discriminate].
  - destruct (updateTooltipEl_completes c1 t tip1 ar pg Htip1 Harrow1 Hpg1)
      as (Hdone2 & _ & _ & Htext2 & Hplace2 & _).
    pose proof (keeps_around_updateTooltipEl_ t c1) as Haround2.
    unfold completion, exec in *.
    destruct (updateTooltipEl_ t c1) as [r2 c2] eqn:E2.
    simpl in Hdone2, Htext2, Hplace2, Haround2. subst r2.
    injection Haround2 as _ _ _ Hov2 _ _ _ _ _.
    rewrite Hov1 in Hov2. simpl. rewrite Hov2. simpl.
    split; [done |]. split; [done |]. split; [done |].
    intros _. split; [| exact Htext2].
    rewrite <- Htw1, <- Haw1. exact Hplace2.
Qed.


Lemma build_result c :
  let c' := exec buildAndAppendFocusedState c in
  is_Some (focusedStateOverlay_ c') /\
  tooltip_ c' = Some freshTooltip /\
  tooltipArrow_ c' = Some (mkArrow None) /\
  activePage c' = activePage c /\
  previousTarget_ c' = previousTarget_ c /\
  state_ c' = state_ c /\
  tooltipOffsetWidth c' = tooltipOffsetWidth c /\
  arrowOffsetWidth c' = arrowOffsetWidth c.
Proof.
  destruct c as [s prev sr ov tp a evo p tw aw ui lg].
  simpl. repeat split. by eexists.
Qed.


(** X7: a target received in state [HIDDEN] or [FOCUSED], after any inputs
    since the constructor and with an active page, is always handled to
    the end: the layer exists afterwards, built on this occasion if it was
    not, and is shown; the component is [FOCUSED] and remembers the target;
    and when the target is not the one remembered before, the tooltip
    carries the target's text and the placement computed from the target's
    and the page's rectangles. *)
Theorem focus_shows_tooltip (c : Component) (t : Element) (pg : StoryPage) :
  consistent c ->
  state_ c = ComponentState.HIDDEN \/ state_ c = ComponentState.FOCUSED ->
  activePage c = Some pg ->
  let c' := exec (onEmbeddedComponentUpdate_ (Some t)) c in
  completion (onEmbeddedComponentUpdate_ (Some t)) c = Normal tt /\
  state_ c' = ComponentState.FOCUSED /\
  previousTarget_ c' = Some t /\
  ov_hidden <$> focusedStateOverlay_ c' = Some false /\
  layerBuilt c' /\
  (same_element t (previousTarget_ c) = false ->
     tooltipText c' = Some (expectedText t) /\
     tooltipPlacement c'
     = Some (measurePlacement (tooltipOffsetWidth c) (arrowOffsetWidth c)
               (boundingRect t) (pageRect pg))).
Proof.
  intros Hc Hs Hpg c'. subst c'.
  pose proof (handle_preserves_consistent
                (EmbeddedComponentUpdate (Some t)) c Hc) as Hc'.
  simpl in Hc'.
  assert (Hstate : state_ (exec (onEmbeddedComponentUpdate_ (Some t)) c)
                   = ComponentState.FOCUSED).
  { unfold onEmbeddedComponentUpdate_. rewrite exec_get_bind.
    apply state_dispatch in Hs. rewrite Hs.
    apply setState_sets_state. by right. }
  unfold completion, exec in *. rewrite update_focused in * by exact Hs.
  set (c0 := set_state_ ComponentState.FOCUSED c) in *.
  assert (Hrun : exists c1 ov tip ar,
            onFocusedStateUpdate_ (Some t) c0
            = onFocusedStateUpdate_ (Some t) c1 /\
            focusedStateOverlay_ c1 = Some ov /\ tooltip_ c1 = Some tip /\
            tooltipArrow_ c1 = Some ar /\ activePage c1 = Some pg /\
            previousTarget_ c1 = previousTarget_ c /\
            tooltipOffsetWidth c1 = tooltipOffsetWidth c /\
            arrowOffsetWidth c1 = arrowOffsetWidth c).
  { destruct Hc as (_ & _ & [Hnb | Hb]).
    - destruct (build_result c0)
        as ([ov Hov] & Htip & Har & Hpg1 & Hprev1 & _ & Htw1 & Haw1).
      exists (exec buildAndAppendFocusedState c0), ov, freshTooltip,
        (mkArrow None).
      split; [apply focus_builds_first; apply Hnb |].
      split; [exact Hov |]. split; [exact Htip |]. split; [exact Har |].
      split; [by rewrite Hpg1 |]. split; [exact Hprev1 |].
      split; [exact Htw1 | exact Haw1].
    - destruct Hb as ([ov Hov] & [tip Htip] & [ar Har] & _).
      exists c0, ov, tip, ar. by repeat split. }
  destruct Hrun as (c1 & ov & tip & ar & Heq & Hov & Htip & Har & Hpg1
                    & Hprev1 & Htw1 & Haw1).
  rewrite Heq in *.
  destruct (focus_built_run c1 t ov tip ar pg Hov Htip Har Hpg1)
    as (Hdone & Hprev & Hshown & Hnew).
  split; [exact Hdone |]. split; [exact Hstate |]. split; [exact Hprev |].
  split; [by rewrite Hshown |].
  split.
  - destruct Hc' as (_ & _ & [(Hnone & _) | Hb]); [| exact Hb].
    rewrite Hshown in Hnone. discriminate.
  - intros Hsame. rewrite <- Hprev1 in Hsame.
    destruct (Hnew Hsame) as [Hplace Htext].
    split; [exact Htext |]. by rewrite <- Htw1, <- Haw1.
Qed.

End Focus.


Lemma focus_shows_tooltip_witness :
  consistent component0 /\
  state_ component0 = ComponentState.HIDDEN /\
  activePage component0 = Some storyPage400x600 /\
  completion (onEmbeddedComponentUpdate_ (Some (tweet 2))) component0
  = Normal tt /\
  previousTarget_ (exec (onEmbeddedComponentUpdate_ (Some (tweet 2)))
                     component0)
  = Some (tweet 2).
Proof.
  assert (Hc : consistent component0)
    by apply newComponent_consistent.
  assert (Hs : state_ component0 = ComponentState.HIDDEN) by reflexivity.
  assert (Hpg : activePage component0 = Some storyPage400x600)
    by reflexivity.
  split; [exact Hc |]. split; [exact Hs |]. split; [exact Hpg |].
  destruct (focus_shows_tooltip (H := domHelpers) component0 (tweet 2)
              storyPage400x600 Hc (or_introl Hs) Hpg)
    as (Hdone & _ & Hprev & _).
  split; [exact Hdone | exact Hprev].
Defined.

(** * The expanded view *)

Section Expanded.
Context `{Helpers}.

Lemma toggleExpandedView_appendedOnce target :
  preserves appendedOnce (toggleExpandedView_ target).
Proof.
  intros c Hc. destruct c as [s prev sr ov tp a evo p tw aw ui lg].
  unfold appendedOnce, pageAppends in *. simpl in Hc.
  destruct target as [t |], p as [pg |], evo as [e |], prev as [pt |];
    simpl; exact Hc || (rewrite Hc; reflexivity).
Qed.

Lemma preserves_of_keeps_expanded {A} (m : M A) :
  keeps expandedOverlayView m -> preserves appendedOnce m.
Proof.
  intros Hm c Hc. specialize (Hm c). injection Hm as Hevo Happ.
  unfold appendedOnce in *. by rewrite Hevo, Happ.
Qed.

Lemma keeps_expanded_onFocusedStateUpdate_ target :
  keeps expandedOverlayView (onFocusedStateUpdate_ target).
Proof.
  unfold onFocusedStateUpdate_, buildFocusedState_,
    buildFocusedStateTemplate_, onUIStateUpdate_, updateTooltipBehavior_,
    updateTooltipEl_, updateTooltipText_, updateTooltipIcon_,
    positionTooltip_, getElementHref_.
  keeps_tac.
Qed.

Lemma keeps_expanded_setState_ s target :
  s = ComponentState.HIDDEN \/ s = ComponentState.FOCUSED ->
  keeps expandedOverlayView (setState_ s target).
Proof.
  pose proof keeps_expanded_onFocusedStateUpdate_.
  intros [-> | ->]; unfold setState_; simpl; keeps_tac.
Qed.

Ltac appended_side :=
  let H := fresh "H" in intros H; exact H.

Lemma handle_appendedOnce i : preserves appendedOnce (handle i).
Proof.
  pose proof toggleExpandedView_appendedOnce as Htoggle.
  assert (Hfocus : forall target,
            preserves appendedOnce (onFocusedStateUpdate_ target))
    by (intros; apply preserves_of_keeps_expanded,
                  keeps_expanded_onFocusedStateUpdate_).
  assert (Hset : forall s target,
            s = ComponentState.HIDDEN \/ s = ComponentState.FOCUSED ->
            preserves appendedOnce (setState_ s target))
    by (intros; by apply preserves_of_keeps_expanded,
                     keeps_expanded_setState_).
  destruct i as [target | ui | e | inside |]; simpl.
  - unfold onEmbeddedComponentUpdate_, maybeCloseExpandedView_.
    preserves_tac appended_side;
      first [ apply Hset; by auto | apply Htoggle ].
  - unfold onUIStateUpdate_. preserves_tac appended_side.
  - unfold onCurrentPageIdUpdate, closeFocusedState_, clearTooltip_.
    preserves_tac appended_side; apply Hset; by auto.
  - unfold onOutsideTooltipClick_, closeFocusedState_, clearTooltip_.
    preserves_tac appended_side; apply Hset; by auto.
  - unfold onExpandComponent_, setState_. simpl.
    preserves_tac appended_side; first [ apply Hfocus | apply Htoggle ].
Qed.

(** X11: however many times components are expanded and closed, the
    expanded-view overlay is built and appended to the page at most once:
    after any inputs since the constructor, the overlay exists exactly when
    one append has been asked for, and no second one ever is. *)
Theorem expanded_overlay_appended_once
    (page : option StoryPage) (tw aw : Q) (ui : UIType)
    (inputs : list Input) :
  let c := run inputs (newComponent page tw aw ui) in
  (pageAppends c <= 1)%nat /\
  (is_Some (expandedViewOverlay_ c) <-> pageAppends c = 1%nat).
Proof.
  intros c.
  assert (Hinv : appendedOnce c).
  { subst c. generalize (newComponent page tw aw ui),
      (eq_refl : appendedOnce (newComponent page tw aw ui)).
    induction inputs as [| i inputs IH]; intros c0 Hc0; [exact Hc0 |].
    simpl. by apply IH, handle_appendedOnce. }
  unfold appendedOnce in Hinv.
  destruct (expandedViewOverlay_ c) as [e |]; rewrite Hinv.
  - split; [lia |]. split; [done | by eexists].
  - split; [lia |]. split; [by intros [? ?] | done].
Qed.

(** The entries of the log [x] above its tail [lg]. *)
Ltac log_prefix x lg :=
  lazymatch x with
  | lg => constr:(@nil Effect)
  | ?e :: ?x' => let l := log_prefix x' lg in constr:(e :: l)
  end.

(** Proves a [loggedSince] unfolded and simplified to
    [exists l, x = l ++ lg /\ e ∈ l]. *)
Ltac logged_since :=
  lazymatch goal with
  | |- exists l, ?x = l ++ ?lg /\ _ =>
      let l := log_prefix x lg in
      exists l; split; [reflexivity | set_solver]
  end.

Lemma expand_run c t ov pg :
  focusedStateOverlay_ c = Some ov ->
  activePage c = Some pg ->
  previousTarget_ c = Some t ->
  let r := onExpandComponent_ c in
  r.1 = Normal tt /\
  state_ r.2 = ComponentState.EXPANDED /\
  focusedStateOverlay_ r.2 = Some (mkOverlay true (ov_desktop ov)) /\
  expandedViewOverlay_ r.2 = Some (mkExpandedOverlay true) /\
  activePage r.2
  = Some (mkStoryPage (pageRect pg) true
            (match expandedViewOverlay_ c with
             | Some _ => overlayAppended pg
             | None => true
             end)) /\
  tooltip_ r.2 = tooltip_ c /\
  previousTarget_ r.2 = Some t /\
  loggedSince c r.2 (Dispatch TOGGLE_EXPANDED_COMPONENT (Some t)) /\
  loggedSince c r.2
    (TargetSetTransform (el_id t)
       (measureExpanded (boundingRect t) (pageRect pg))).
Proof.
  intros Hov Hpg Hprev r. subst r.
  destruct c as [s prev sr o tp a evo p tw aw ui lg].
  simpl in Hov, Hpg, Hprev. subst o p prev.
  unfold loggedSince.
  destruct evo as [e |]; simpl;
    (do 7 (split; [reflexivity |])); split; logged_since.
Qed.

Lemma close_run c b ov tip pg t e :
  state_ c = ComponentState.EXPANDED ->
  matches b sel_CLOSE_BUTTON = true ->
  focusedStateOverlay_ c = Some ov ->
  tooltip_ c = Some tip ->
  activePage c = Some pg ->
  previousTarget_ c = Some t ->
  expandedViewOverlay_ c = Some e ->
  let r := onEmbeddedComponentUpdate_ (Some b) c in
  r.1 = Normal tt /\
  state_ r.2 = ComponentState.HIDDEN /\
  focusedStateOverlay_ r.2 = Some (mkOverlay true (ov_desktop ov)) /\
  expandedViewOverlay_ r.2 = Some (mkExpandedOverlay false) /\
  activePage r.2 = Some (mkStoryPage (pageRect pg) false (overlayAppended pg)) /\
  tooltip_ r.2 = Some (tt_set_expandListener false tip) /\
  previousTarget_ r.2 = Some t /\
  loggedSince c r.2 (Dispatch TOGGLE_EXPANDED_COMPONENT None) /\
  loggedSince c r.2 (TargetResetStyles (el_id t) ["transform"%string]).
Proof.
  intros Hs Hm Hov Htip Hpg Hprev Hevo r. subst r.
  unfold onEmbeddedComponentUpdate_, mbind, M_bind, get. rewrite Hs.
  change ((let r := maybeCloseExpandedView_ (Some b) c in
           r.1 = Normal tt /\
           state_ r.2 = ComponentState.HIDDEN /\
           focusedStateOverlay_ r.2 = Some (mkOverlay true (ov_desktop ov)) /\
           expandedViewOverlay_ r.2 = Some (mkExpandedOverlay false) /\
           activePage r.2
           = Some (mkStoryPage (pageRect pg) false (overlayAppended pg)) /\
           tooltip_ r.2 = Some (tt_set_expandListener false tip) /\
           previousTarget_ r.2 = Some t /\
           loggedSince c r.2 (Dispatch TOGGLE_EXPANDED_COMPONENT None) /\
           loggedSince c r.2
             (TargetResetStyles (el_id t) ["transform"%string]))).
  unfold maybeCloseExpandedView_. rewrite Hm.
  destruct c as [s prev sr o tp a evo p tw aw ui lg].
  simpl in Hs, Hov, Htip, Hpg, Hprev, Hevo. subst s o tp p prev evo.
  unfold loggedSince. simpl.
  (do 7 (split; [reflexivity |])); split; logged_since.
Qed.

(** X9: expanding the remembered target and then clicking the close button
    is a round trip.  Each step is taken with the callbacks it schedules,
    and nothing is said of the order of what it logs.  The expansion
    completes and leaves the component [EXPANDED] with the tooltip layer
    hidden, the page in expanded mode and the overlay displayed; the
    transform computed from the target's rectangle is written to the
    target and the store is told of the expanded target.  The close
    completes and leaves the component [HIDDEN], the page out of expanded
    mode and the overlay not displayed; the [transform] style of that same
    target is reset and the store is told that nothing is expanded; the
    expand-click listener is detached, the tooltip is otherwise what it
    was, and the target is still remembered. *)
Theorem expand_then_close_round_trip
    (c : Component) (t b : Element) (ov : Overlay) (tip : Tooltip)
    (pg : StoryPage) :
  focusedStateOverlay_ c = Some ov ->
  tooltip_ c = Some tip ->
  activePage c = Some pg ->
  previousTarget_ c = Some t ->
  matches b sel_CLOSE_BUTTON = true ->
  let c1 := exec onExpandComponent_ c in
  let c2 := exec (onEmbeddedComponentUpdate_ (Some b)) c1 in
  (completion onExpandComponent_ c = Normal tt /\
   state_ c1 = ComponentState.EXPANDED /\
   ov_hidden <$> focusedStateOverlay_ c1 = Some true /\
   expandedMode <$> activePage c1 = Some true /\
   expandedViewOverlay_ c1 = Some (mkExpandedOverlay true) /\
   loggedSince c c1 (Dispatch TOGGLE_EXPANDED_COMPONENT (Some t)) /\
   loggedSince c c1
     (TargetSetTransform (el_id t)
        (measureExpanded (boundingRect t) (pageRect pg)))) /\
  (completion (onEmbeddedComponentUpdate_ (Some b)) c1 = Normal tt /\
   state_ c2 = ComponentState.HIDDEN /\
   ov_hidden <$> focusedStateOverlay_ c2 = Some true /\
   expandedMode <$> activePage c2 = Some false /\
   expandedViewOverlay_ c2 = Some (mkExpandedOverlay false) /\
   tooltip_ c2 = Some (tt_set_expandListener false tip) /\
   previousTarget_ c2 = Some t /\
   loggedSince c1 c2 (Dispatch TOGGLE_EXPANDED_COMPONENT None) /\
   loggedSince c1 c2 (TargetResetStyles (el_id t) ["transform"%string])).
Proof.
  intros Hov Htip Hpg Hprev Hm c1 c2. subst c2 c1.
  destruct (expand_run c t ov pg Hov Hpg Hprev)
    as (Hdone1 & Hs1 & Hov1 & Hevo1 & Hpg1 & Htip1 & Hprev1 & Htold1 & Htr1).
  unfold completion, exec.
  split.
  - split; [exact Hdone1 |]. split; [exact Hs1 |].
    split; [by rewrite Hov1 |]. split; [by rewrite Hpg1 |].
    split; [exact Hevo1 |]. split; [exact Htold1 | exact Htr1].
  - rewrite Htip in Htip1.
    destruct (close_run _ b _ tip _ t _ Hs1 Hm Hov1 Htip1 Hpg1 Hprev1 Hevo1)
      as (Hdone2 & Hs2 & Hov2 & Hevo2 & Hpg2 & Htip2 & Hprev2 & Htold2
          & Hreset2).
    split; [exact Hdone2 |]. split; [exact Hs2 |].
    split; [by rewrite Hov2 |]. split; [by rewrite Hpg2 |].
    split; [exact Hevo2 |]. split; [exact Htip2 |]. split; [exact Hprev2 |].
    split; [exact Htold2 | exact Hreset2].
Qed.

(** X10: [toggleExpandedView_] at its edges.  Without an active page it fails
    its assertion before touching anything, whatever it is asked.  Asked
    to collapse when no overlay was ever built, it does nothing.  Asked to
    collapse when the overlay exists, it returns normally whether or not a
    target is remembered, since that is asserted in the callback it
    schedules; the page is switched out of expanded mode and the overlay
    off, and the [transform] of the remembered target, if there is one, is
    reset. *)
Theorem toggleExpandedView_edges :
  (forall c target,
     activePage c = None ->
     toggleExpandedView_ target c = (Throw AssertionError, c)) /\
  (forall c pg,
     activePage c = Some pg ->
     expandedViewOverlay_ c = None ->
     toggleExpandedView_ None c = (Normal tt, c)) /\
  (forall c pg e,
     activePage c = Some pg ->
     expandedViewOverlay_ c = Some e ->
     let r := toggleExpandedView_ None c in
     r.1 = Normal tt /\
     expandedMode <$> activePage r.2 = Some false /\
     expandedViewOverlay_ r.2 = Some (mkExpandedOverlay false) /\
     (forall t, previousTarget_ c = Some t ->
        loggedSince c r.2 (TargetResetStyles (el_id t) ["transform"%string]))).
Proof.
  split; [| split].
  - intros c target Hpg. destruct c as [s prev sr o tp a evo p tw aw ui lg].
    simpl in Hpg. subst p. by destruct target.
  - intros c pg Hpg Hevo. destruct c as [s prev sr o tp a evo p tw aw ui lg].
    simpl in Hpg, Hevo. by subst p evo.
  - intros c pg e Hpg Hevo r. subst r.
    destruct c as [s prev sr o tp a evo p tw aw ui lg].
    simpl in Hpg, Hevo. subst p evo. unfold loggedSince.
    destruct prev as [pt |]; simpl;
      (do 3 (split; [reflexivity |])); intros t [= <-].
    logged_since.
Qed.

End Expanded.

Lemma expand_then_close_round_trip_witness :
  exists ov tip pg c1,
    let c := exec (onEmbeddedComponentUpdate_ (Some (tweet 2))) component0 in
    focusedStateOverlay_ c = Some ov /\
    tooltip_ c = Some tip /\
    activePage c = Some pg /\
    previousTarget_ c = Some (tweet 2) /\
    matches (closeButton 3) sel_CLOSE_BUTTON = true /\
    c1 = exec onExpandComponent_ c /\
    state_ (exec (onEmbeddedComponentUpdate_ (Some (closeButton 3))) c1)
    = ComponentState.HIDDEN.
Proof.
  set (c := exec (onEmbeddedComponentUpdate_ (Some (tweet 2))) component0).
  destruct (focusedStateOverlay_ c) as [ov |] eqn:Hov;
    [| by vm_compute in Hov].
  destruct (tooltip_ c) as [tip |] eqn:Htip; [| by vm_compute in Htip].
  destruct (activePage c) as [pg |] eqn:Hpg; [| by vm_compute in Hpg].
  assert (Hprev : previousTarget_ c = Some (tweet 2)) by (by vm_compute).
  assert (Hm : matches (closeButton 3) sel_CLOSE_BUTTON = true)
    by (by vm_compute).
  exists ov, tip, pg, (exec onExpandComponent_ c).
  cbv zeta. fold c. rewrite Hov, Htip, Hpg.
  split; [reflexivity |]. split; [reflexivity |]. split; [reflexivity |].
  split; [exact Hprev |]. split; [exact Hm |]. split; [reflexivity |].
  exact (proj1 (proj2 (proj2 (expand_then_close_round_trip (H := domHelpers)
                                c (tweet 2) (closeButton 3) ov tip pg
                                Hov Htip Hpg Hprev Hm)))).
Defined.

Lemma toggleExpandedView_edges_witness :
  activePage (newComponent None 200 10 MOBILE) = None /\
  toggleExpandedView_ None (newComponent None 200 10 MOBILE)
  = (Throw AssertionError, newComponent None 200 10 MOBILE).
Proof.
  assert (Hpg : activePage (newComponent None 200 10 MOBILE) = None)
    by reflexivity.
  split; [exact Hpg |].
  exact (proj1 toggleExpandedView_edges _ None Hpg).
Defined.

(** * Layout updates, navigation and a focus without page *)

Section Layer.
Context `{Helpers}.

(** X12: [buildFocusedState_] always completes: it builds the layer hidden,
    with the [desktop] attribute of the store's layout at that time, and
    subscribes twice.  A layout update before the layer exists fails its
    assertion and changes nothing.  Once the layer exists, layout updates
    complete, the [desktop] attribute is that of the last update, and they
    never show or hide the layer nor touch the state or the tooltip. *)
Theorem layout_updates :
  (forall c,
     let r := buildFocusedState_ c in
     r.1 = Normal tt /\
     focusedStateOverlay_ r.2 = Some (mkOverlay true (isDesktop (uiState c))) /\
     tooltip_ r.2 = Some freshTooltip /\
     subscriptions r.2 = (2 + subscriptions c)%nat) /\
  (forall c ui,
     focusedStateOverlay_ c = None ->
     onUIStateUpdate_ ui c = (Throw AssertionError, c)) /\
  (forall c ov ui1 ui2,
     focusedStateOverlay_ c = Some ov ->
     let c1 := exec (onUIStateUpdate_ ui1) c in
     let c2 := exec (onUIStateUpdate_ ui2) c1 in
     completion (onUIStateUpdate_ ui1) c = Normal tt /\
     completion (onUIStateUpdate_ ui2) c1 = Normal tt /\
     focusedStateOverlay_ c2 = Some (mkOverlay (ov_hidden ov) (isDesktop ui2)) /\
     state_ c2 = state_ c /\ tooltip_ c2 = tooltip_ c).
Proof.
  split; [| split].
  - intros c. destruct c as [s prev sr o tp a evo p tw aw ui lg].
    simpl. repeat split; by destruct ui.
  - intros c ui Hov. destruct c as [s prev sr o tp a evo p tw aw ui0 lg].
    simpl in Hov. by subst o.
  - intros c ov ui1 ui2 Hov c1 c2. subst c2 c1.
    destruct c as [s prev sr o tp a evo p tw aw ui0 lg].
    simpl in Hov. subst o.
    unfold completion, exec. simpl. repeat split; by destruct ui2.
Qed.

Lemma outside_click_hides_layer c ov tip :
  focusedStateOverlay_ c = Some ov ->
  tooltip_ c = Some tip ->
  focusedStateOverlay_ (exec (onOutsideTooltipClick_ false) c)
  = Some (mkOverlay true (ov_desktop ov)).
Proof.
  intros Hov Htip. destruct c as [s prev sr o tp a evo p tw aw ui lg].
  simpl in Hov, Htip. by subst o tp.
Qed.

(** X13: the two navigation buttons always ask for opposite directions, and
    a right-to-left layout swaps them.  On a component whose layer is
    built, the listener of a button prevents the default action, gives the
    button's direction to the event it dispatches, and does nothing else.
    But the click does not stop there: the buttons are inside the layer,
    which listens to every click, so whatever updates the store delivers
    while the story navigates, the click ends with the tooltip closed: the
    component is [HIDDEN], the layer hidden, and the tooltip has neither
    [href] nor expand-click listener. *)
Theorem navigation_click :
  (forall rtl,
     navigationDirection rtl ButtonLeft <> navigationDirection rtl ButtonRight /\
     navigationDirection (negb rtl) ButtonLeft
     = navigationDirection rtl ButtonRight /\
     navigationDirection false ButtonLeft = PREVIOUS_PAGE) /\
  (forall c rtl b,
     consistentBuilt c ->
     onNavigationalClick_ (navigationDirection rtl b) c
     = (Normal (navigationDirection rtl b),
        set_log (EventPreventDefault :: log c) c)) /\
  (forall c rtl b storeUpdates,
     consistentBuilt c ->
     let r := navigationButtonClick rtl b storeUpdates c in
     r.1 = Normal (navigationDirection rtl b) /\
     state_ r.2 = ComponentState.HIDDEN /\
     ov_hidden <$> focusedStateOverlay_ r.2 = Some true /\
     tooltipHref r.2 = None /\
     tooltipExpandListener r.2 = Some false).
Proof.
  assert (Hlistener : forall c d,
            consistentBuilt c ->
            onNavigationalClick_ d c
            = (Normal d, set_log (EventPreventDefault :: log c) c)).
  { intros c d (_ & _ & _ & _ & _ & Hsr & _).
    destruct c as [s prev sr o tp a evo p tw aw ui lg].
    simpl in Hsr. by subst sr. }
  split; [| split].
  - intros rtl. by destruct rtl.
  - intros c rtl b Hb. by apply Hlistener.
  - intros c rtl b storeUpdates Hb r. subst r.
    unfold navigationButtonClick.
    rewrite (Hlistener c _ Hb). cbn [fst snd].
    split; [reflexivity |].
    assert (Hb1 : consistentBuilt (set_log (EventPreventDefault :: log c) c)).
    { destruct Hb as (Hv & Hw & Ho & Ht & Ha & Hs & Hn).
      by repeat split. }
    pose proof (run_preserves_built storeUpdates _ Hb1) as Hb2.
    set (c2 := run storeUpdates (set_log (EventPreventDefault :: log c) c))
      in *.
    destruct Hb2 as (_ & _ & [ov Hov] & [tip Htip] & _).
    destruct (closing_input_clears c2 tip (OverlayClick false) Htip
                (or_introl eq_refl)) as (Hhref & Hlistener2 & Hstate).
    simpl in Hhref, Hlistener2, Hstate.
    split; [exact Hstate |].
    split; [by rewrite (outside_click_hides_layer c2 ov tip Hov Htip) |].
    split; [exact Hhref | exact Hlistener2].
Qed.


End Layer.

Lemma layout_updates_witness :
  exists ov,
    focusedStateOverlay_ focusedComponent = Some ov /\
    focusedStateOverlay_
      (exec (onUIStateUpdate_ MOBILE)
         (exec (onUIStateUpdate_ DESKTOP_PANELS) focusedComponent))
    = Some (mkOverlay (ov_hidden ov) (isDesktop MOBILE)).
Proof.
  destruct (focusedStateOverlay_ focusedComponent) as [ov |] eqn:Hov;
    [| by vm_compute in Hov].
  exists ov. split; [reflexivity |].
  exact (proj1 (proj2 (proj2 (proj2 (proj2 layout_updates) focusedComponent
                                ov DESKTOP_PANELS MOBILE Hov)))).
Defined.

Lemma navigation_click_witness :
  consistentBuilt focusedComponent /\
  (let r := navigationButtonClick false ButtonRight
              [CurrentPageIdUpdate (Some (linkTo 1 "https://example.com/"))]
              focusedComponent in
   r.1 = Normal NEXT_PAGE /\ state_ r.2 = ComponentState.HIDDEN /\
   tooltipHref focusedComponent = Some "https://example.com/"%string /\
   tooltipHref r.2 = None).
Proof.
  assert (Hb : consistentBuilt focusedComponent).
  { split; [by right; left |]. split; [by vm_compute |].
    repeat split; vm_compute; by eexists. }
  split; [exact Hb |]. cbv zeta.
  destruct (proj2 (proj2 (navigation_click (H := domHelpers)))
              focusedComponent false ButtonRight
              [CurrentPageIdUpdate (Some (linkTo 1 "https://example.com/"))]
              Hb)
    as (Hdone & Hstate & _ & Hhref & _).
  split; [exact Hdone |]. split; [exact Hstate |].
  split; [by vm_compute | exact Hhref].
Defined.

